(** * The counter backend (src/backend/server.js)

    A shallow embedding of the Express application of server.js and of the
    SQL statements it sends to its SQLite store, followed by the
    properties of the read and increment endpoints, of startup and of the
    fallback route.

    Conventions of the embedding.
    - The persisted state is the [counter] table: its rows, keyed by the
      primary key [id], and the high-water mark that [AUTOINCREMENT] keeps.
      A cell of the [value] column is an INTEGER of SQLite's 64-bit range
      or, once [value + 1] has overflowed, a REAL; an id is a 64-bit
      INTEGER.  What a handler reads in [row.value] is the JavaScript
      number (a double) that the driver makes of the cell.
    - Every storage call of the source receives a callback [(err, row)].
      Here a storage call is a function of the store that returns the new
      store and either a result or an error message.  Whether the storage
      layer fails a call for reasons of its own (I/O, lock, corruption) is
      an input of the call, its [fault]; a statement over a table that does
      not exist fails by itself.
    - A handler receives the response object [res] and returns it as it was
      sent; [console.*] output is not modelled.
    - The first middleware, [express.json()], is the library's: whether it
      lets a request through or refuses its body is an input, carried by
      the request.
    - The script of the page that GET / serves, and the standalone page
      that calls the same two endpoints, are embedded as functions of the
      DOM state they touch and of what [fetch] settles to. *)

From Stdlib Require Import ZArith String List Bool Lia.
From Stdlib Require Import DecimalString.
From stdpp Require Import base option list gmap fin_maps.

Local Open Scope Z_scope.
Local Open Scope string_scope.
Local Open Scope list_scope.

(** ** JSON values and the Express response object *)

(** The handlers only build flat object literals: a list of fields whose
    values are numbers or strings.  [JNum n] is the JavaScript Number (a
    double) nearest to the integer [n]. *)
Inductive JsonValue : Type :=
| JNum (n : Z)
| JStr (s : string).

Definition Json : Type := list (string * JsonValue).

(** What was written to the socket: [res.json(v)] or [res.send(text)]. *)
Inductive Payload : Type :=
| SentJson (v : Json)
| SentText (text : string).

Record Response : Type := mkResponse {
  statusCode : Z;
  contentType : option string;
  sent : option Payload
}.

(** A fresh Express response: status 200, no type chosen, nothing sent. *)
Definition fresh_res : Response :=
  {| statusCode := 200; contentType := None; sent := None |}.

Definition res_status (code : Z) (res : Response) : Response :=
  {| statusCode := code; contentType := contentType res; sent := sent res |}.

Definition res_type (t : string) (res : Response) : Response :=
  {| statusCode := statusCode res; contentType := Some t; sent := sent res |}.

Definition res_json (v : Json) (res : Response) : Response :=
  {| statusCode := statusCode res; contentType := contentType res;
     sent := Some (SentJson v) |}.

Definition res_send (text : string) (res : Response) : Response :=
  {| statusCode := statusCode res; contentType := contentType res;
     sent := Some (SentText text) |}.

(** The two object literals of the handlers. *)
Definition value_body (v : Z) : Json := [("value", JNum v)].
Definition error_body (msg : string) : Json := [("error", JStr msg)].

(** ** Numbers: SQLite's 64-bit INTEGER and JavaScript's double *)

(** The bounds of a 64-bit INTEGER: -2^63 and 2^63 - 1. *)
Definition int64_min : Z := -9223372036854775808.
Definition int64_max : Z := 9223372036854775807.

(** Whether a number is held as an INTEGER.  A number outside the 64-bit
    range stands for a REAL cell; the only one this program can produce is
    2^63, by overflow. *)
Definition is_integer (v : Z) : bool :=
  Z.leb int64_min v && Z.leb v int64_max.

(** [value + 1] as SQLite computes it.  On an INTEGER it is integer
    addition, and when that overflows (at 2^63 - 1) the result is the REAL
    2^63.  A REAL of that magnitude absorbs the addition: doubles are 2048
    apart there. *)
Definition sql_add1 (v : Z) : Z :=
  if is_integer v then v + 1 else v.

(** Up to 2^53 in magnitude every integer is a double. *)
Definition safe_max : Z := 9007199254740992.

(** The double nearest to an integer, ties to the even mantissa: what the
    driver hands to JavaScript for a cell (a 64-bit INTEGER is converted, a
    REAL is passed as it is). *)
Definition to_double (v : Z) : Z :=
  let a := Z.abs v in
  if Z.leb a safe_max then v
  else
    let e := Z.log2 a - 52 in
    let q := a / 2 ^ e in
    let r := a mod 2 ^ e in
    let half := 2 ^ (e - 1) in
    let q' :=
      if Z.ltb r half then q
      else if Z.ltb half r then q + 1
      else if Z.even q then q else q + 1 in
    Z.sgn v * (q' * 2 ^ e).

(** [row.value] for a cell. *)
Definition js_number (cell : Z) : Z := to_double cell.

(** ** The persistent store *)

(** The [counter] table: [id INTEGER PRIMARY KEY AUTOINCREMENT] maps each id
    to the [value] of its row; [seq] is the largest id ever handed out. *)
Record Table : Type := mkTable {
  rows : gmap Z Z;
  seq : Z
}.

(** The database file: [None] while the table has not been created. *)
Definition Store : Type := option Table.

Definition empty_table : Table := {| rows := ∅; seq := 0 |}.

(** The row addressed by every request: [WHERE id = 1]. *)
Definition stored_value (s : Store) : option Z :=
  match s with
  | Some t => rows t !! 1
  | None => None
  end.

Definition row_count (s : Store) : nat :=
  match s with
  | Some t => size (rows t)
  | None => O
  end.

(** ** Storage calls *)

(** The error the storage layer injects in a call, if any ([err.message]). *)
Definition fault : Type := option string.

Inductive DbResult (A : Type) : Type :=
| DbOk (a : A)
| DbErr (message : string).
Arguments DbOk {A} a.
Arguments DbErr {A} message.

Definition no_such_table : string := "SQLITE_ERROR: no such table: counter".

(** [new sqlite3.Database(DB_FILE, cb)]: creates the file when absent. *)
Definition db_open (f : fault) (s : Store) : Store * DbResult unit :=
  match f with
  | Some m => (s, DbErr m)
  | None => (s, DbOk tt)
  end.

(** [CREATE TABLE IF NOT EXISTS counter (...)]. *)
Definition sql_create_table (f : fault) (s : Store) : Store * DbResult unit :=
  match f with
  | Some m => (s, DbErr m)
  | None =>
      match s with
      | Some t => (Some t, DbOk tt)
      | None => (Some empty_table, DbOk tt)
      end
  end.

(** [SELECT COUNT( * ) as count FROM counter]. *)
Definition sql_select_count (f : fault) (s : Store) : Store * DbResult Z :=
  match f with
  | Some m => (s, DbErr m)
  | None =>
      match s with
      | Some t => (s, DbOk (Z.of_nat (size (rows t))))
      | None => (s, DbErr no_such_table)
      end
  end.

(** The largest id in use, 0 for an empty table. *)
Definition max_rowid (m : gmap Z Z) : Z :=
  map_fold (fun k _ acc => Z.max k acc) 0 m.

Definition database_full : string := "SQLITE_FULL: database or disk is full".

(** [INSERT INTO counter (value) VALUES (?)] with an AUTOINCREMENT key: the
    new id is one more than the largest id the table ever had, and once
    that is the largest 64-bit INTEGER the statement fails. *)
Definition sql_insert_value (f : fault) (v : Z) (s : Store)
  : Store * DbResult unit :=
  match f with
  | Some m => (s, DbErr m)
  | None =>
      match s with
      | Some t =>
          let top := Z.max (seq t) (max_rowid (rows t)) in
          if Z.ltb top int64_max then
            (Some {| rows := <[top + 1 := v]> (rows t); seq := top + 1 |},
             DbOk tt)
          else (s, DbErr database_full)
      | None => (s, DbErr no_such_table)
      end
  end.

(** [UPDATE counter SET value = value + 1 WHERE id = 1]: one atomic
    statement; it succeeds, changing nothing, when no row has id 1. *)
Definition sql_update_increment (f : fault) (s : Store)
  : Store * DbResult unit :=
  match f with
  | Some m => (s, DbErr m)
  | None =>
      match s with
      | Some t =>
          (Some {| rows := alter sql_add1 1 (rows t); seq := seq t |}, DbOk tt)
      | None => (s, DbErr no_such_table)
      end
  end.

(** [SELECT value FROM counter WHERE id = 1]: [row] is undefined ([None])
    when no row has id 1. *)
Definition sql_select_value (f : fault) (s : Store)
  : Store * DbResult (option Z) :=
  match f with
  | Some m => (s, DbErr m)
  | None =>
      match s with
      | Some t => (s, DbOk (rows t !! 1))
      | None => (s, DbErr no_such_table)
      end
  end.

(** ** Endpoint 1: GET /api/counter *)

Definition msg_retrieve : string := "Failed to retrieve counter value.".

(** The callback of [db.get] in the GET handler. *)
Definition get_on_select (r : DbResult (option Z)) (res : Response)
  : Response :=
  match r with
  | DbErr _ => res_json (error_body msg_retrieve) (res_status 500 res)
  | DbOk None => res_json (value_body 0) (res_status 200 res)
  | DbOk (Some cell) => res_json (value_body (js_number cell)) res
  end.

Definition api_counter_get (f : fault) (res : Response) (s : Store)
  : Store * Response :=
  let '(s1, r) := sql_select_value f s in
  (s1, get_on_select r res).

(** ** Endpoint 2: POST /api/counter/increment *)

Definition msg_increment : string := "Failed to increment counter value.".
Definition msg_retrieve_new : string := "Failed to retrieve new counter value.".
Definition msg_disappeared : string := "Counter row disappeared after increment.".

(** A POST request between its storage calls: the UPDATE is queued, or the
    UPDATE is done and the SELECT is queued, or the response is sent. *)
Inductive PostReq : Type :=
| AwaitUpdate (res : Response)
| AwaitSelect (res : Response)
| Responded (res : Response).

(** The callback of [db.run]: answer the error, or queue the SELECT. *)
Definition post_on_update (r : DbResult unit) (res : Response) : PostReq :=
  match r with
  | DbErr _ => Responded (res_json (error_body msg_increment) (res_status 500 res))
  | DbOk _ => AwaitSelect res
  end.

(** The callback of the inner [db.get]. *)
Definition post_on_select (r : DbResult (option Z)) (res : Response)
  : Response :=
  match r with
  | DbErr _ => res_json (error_body msg_retrieve_new) (res_status 500 res)
  | DbOk None => res_json (error_body msg_disappeared) (res_status 500 res)
  | DbOk (Some cell) => res_json (value_body (js_number cell)) res
  end.

(** One storage call of a request completes and its callback runs. *)
Definition post_step (f : fault) (rq : PostReq) (s : Store)
  : Store * PostReq :=
  match rq with
  | AwaitUpdate res =>
      let '(s1, r) := sql_update_increment f s in (s1, post_on_update r res)
  | AwaitSelect res =>
      let '(s1, r) := sql_select_value f s in
      (s1, Responded (post_on_select r res))
  | Responded res => (s, Responded res)
  end.

(** The handler as the source nests it: the UPDATE, then, inside its
    callback and unless it failed, the SELECT.  [fu] and [fs] are the faults
    of the two storage calls. *)
Definition api_counter_increment (fu fs : fault) (res : Response) (s : Store)
  : Store * Response :=
  let '(s1, r1) := sql_update_increment fu s in
  match r1 with
  | DbErr _ => (s1, res_json (error_body msg_increment) (res_status 500 res))
  | DbOk _ =>
      let '(s2, r2) := sql_select_value fs s1 in
      (s2, post_on_select r2 res)
  end.

(** ** Database initialization and startup *)

(** The faults of the four storage calls of [initializeDatabase]. *)
Record InitFaults : Type := mkInitFaults {
  on_open : fault;
  on_create : fault;
  on_count : fault;
  on_insert : fault
}.

Definition no_faults : InitFaults :=
  {| on_open := None; on_create := None; on_count := None; on_insert := None |}.

(** How the promise of [initializeDatabase] settles. *)
Inductive Settled : Type :=
| Resolved
| Rejected (message : string).

Definition initializeDatabase (fs : InitFaults) (s : Store) : Store * Settled :=
  let '(s0, r0) := db_open (on_open fs) s in
  match r0 with
  | DbErr m => (s0, Rejected m)
  | DbOk _ =>
      let '(s1, r1) := sql_create_table (on_create fs) s0 in
      match r1 with
      | DbErr m => (s1, Rejected m)
      | DbOk _ =>
          let '(s2, r2) := sql_select_count (on_count fs) s1 in
          match r2 with
          | DbErr m => (s2, Rejected m)
          | DbOk count =>
              if Z.eqb count 0 then
                let '(s3, r3) := sql_insert_value (on_insert fs) 0 s2 in
                match r3 with
                | DbErr m => (s3, Rejected m)
                | DbOk _ => (s3, Resolved)
                end
              else (s2, Resolved)
          end
      end
  end.

(** The server process: not launched yet, listening, or gone. *)
Inductive Process : Type :=
| NotStarted
| Listening
| Exited (code : Z).

(** The top level of server.js: [.then] starts the listener, [.catch] calls
    [process.exit(1)]. *)
Definition main (fs : InitFaults) (s : Store) : Store * Process :=
  match initializeDatabase fs s with
  | (s', Resolved) => (s', Listening)
  | (s', Rejected _) => (s', Exited 1)
  end.

(** Some storage call that initialization performs on [s] is failed by the
    storage layer.  The INSERT is only performed on a store without rows. *)
Definition init_call_fails (fs : InitFaults) (s : Store) : Prop :=
  is_Some (on_open fs) ∨ is_Some (on_create fs) ∨ is_Some (on_count fs) ∨
  (row_count s = O ∧ is_Some (on_insert fs)).

(** ** Routing *)

(** What [express.json()] makes of a request: it passes it on (there is no
    body, the body is not declared as JSON, or it parsed into [req.body]),
    or it fails it with an HTTP error (400 for a body that does not parse,
    413 for one beyond the size limit, ...), which Express's default error
    handler answers with that status and an HTML page. *)
Inductive BodyVerdict : Type :=
| BodyPassed
| BodyRefused (status : Z) (page : string).

Record Request : Type := mkRequest {
  method : string;
  originalUrl : string;
  body : BodyVerdict
}.

(** The answer of the default error handler. *)
Definition error_page (status : Z) (page : string) (res : Response)
  : Response :=
  res_send page (res_type "text/html; charset=utf-8" (res_status status res)).

Section Application.

(** Express's route matcher ([app.get(path, ...)], [app.post(path, ...)]):
    whether a route registered for a verb and a path pattern takes a
    request.  It is the router's, not this program's. *)
Variable route_matches : string -> string -> Request -> bool.

(** The page that [GET /] sends, a literal of the source. *)
Variable frontend_html : string.

Definition serve_frontend (res : Response) : Response :=
  res_send frontend_html (res_type "text/html" res).

(** The last middleware, reached when no route took the request. *)
Definition not_found (req : Request) (res : Response) : Response :=
  res_send "404: Not Found" (res_status 404 res).

(** The middleware stack in registration order: [express.json()] first,
    which ends the request when it refuses the body and otherwise only
    fills [req.body], which no handler reads; then the three routes; then
    the fallback.  [fu] is the fault of the first storage call of the
    handler that runs, [fs] of its second. *)
Definition app_handle (fu fs : fault) (req : Request) (res : Response)
  (s : Store) : Store * Response :=
  match body req with
  | BodyRefused status page => (s, error_page status page res)
  | BodyPassed =>
      if route_matches "GET" "/api/counter" req then
        api_counter_get fu res s
      else if route_matches "POST" "/api/counter/increment" req then
        api_counter_increment fu fs res s
      else if route_matches "GET" "/" req then
        (s, serve_frontend res)
      else
        (s, not_found req res)
  end.

(** *** The system over time

    The store outlives the process.  A process is launched on the store
    as it is ([main]); while it listens it serves requests one after the
    other; it may be stopped, and launched again. *)
Inductive Event : Type :=
| Launch (fs : InitFaults)
| Serve (req : Request) (fu fs : fault)
| Halt.

Definition System : Type := Store * Process.

(** Before the first launch there is no database file. *)
Definition boot : System := (None, NotStarted).

Definition sys_step (ev : Event) (st : System) : option System :=
  match ev, snd st with
  | Launch _, Listening => None
  | Launch fs, _ => Some (main fs (fst st))
  | Serve req fu fs, Listening =>
      Some (fst (app_handle fu fs req fresh_res (fst st)), Listening)
  | Serve _ _ _, _ => None
  | Halt, Listening => Some (fst st, Exited 0)
  | Halt, _ => None
  end.

Fixpoint run (evs : list Event) (st : System) : option System :=
  match evs with
  | [] => Some st
  | ev :: evs' =>
      match sys_step ev st with
      | Some st' => run evs' st'
      | None => None
      end
  end.

End Application.

(** ** Requests in flight together *)

(** The requests the server is working on.  Node runs one callback at a
    time and the store runs one statement at a time, so an execution is a
    sequence of turns: in each, one storage call of one request completes
    and its callback runs. *)
Abbreviation Pool := (list PostReq).

Definition pool_step (i : nat) (f : fault) (ps : Pool * Store) : Pool * Store :=
  match fst ps !! i with
  | Some rq =>
      let '(s', rq') := post_step f rq (snd ps) in (<[i := rq']> (fst ps), s')
  | None => ps
  end.

(** A schedule names, turn by turn, the request whose call completes and
    the fault of that call. *)
Fixpoint run_schedule (sched : list (nat * fault)) (ps : Pool * Store)
  : Pool * Store :=
  match sched with
  | [] => ps
  | (i, f) :: sched' => run_schedule sched' (pool_step i f ps)
  end.

(** [K] POST requests have arrived and none has reached the store yet. *)
Definition arrivals (K : nat) : Pool := replicate K (AwaitUpdate fresh_res).

Definition responded (rq : PostReq) : bool :=
  match rq with
  | Responded _ => true
  | _ => false
  end.

Definition fault_free (sched : list (nat * fault)) : Prop :=
  Forall (fun turn => snd turn = None) sched.

(** One turn for each of the requests [n], ..., [n + k - 1], in order and
    without fault. *)
Definition round (n k : nat) : list (nat * fault) :=
  map (fun i => (i, None)) (List.seq n k).

(** The requests that are no longer waiting for their UPDATE. *)
Fixpoint past_update (pool : Pool) : nat :=
  match pool with
  | [] => O
  | AwaitUpdate _ :: pool' => past_update pool'
  | _ :: pool' => S (past_update pool')
  end.

(** [N] POST requests one after the other, none meeting a storage error. *)
Fixpoint increments (N : nat) (s : Store) : Store :=
  match N with
  | O => s
  | S N' => increments N' (fst (api_counter_increment None None fresh_res s))
  end.

(** The 200 response with body [{"value": v}]. *)
Definition ok_value (v : Z) : Response :=
  {| statusCode := 200; contentType := None;
     sent := Some (SentJson [("value", JNum v)]) |}.

(** A 500 response with body [{"error": msg}]. *)
Definition error_500 (msg : string) : Response :=
  {| statusCode := 500; contentType := None;
     sent := Some (SentJson [("error", JStr msg)]) |}.

(** The strictest route matcher: same verb, same path. *)
Definition exact_route (verb path : string) (req : Request) : bool :=
  String.eqb verb (method req) && String.eqb path (originalUrl req).

(** The store this program makes for itself: one row, with id 1. *)
Definition single_row (s : Store) : Prop :=
  exists v, s = Some {| rows := {[1 := v]}; seq := 1 |}.

(** What holds of the system between events: a listening process has its
    row; otherwise the store may still be absent, or hold the table that an
    interrupted initialization left without its row. *)
Definition sys_inv (st : Store * Process) : Prop :=
  match snd st with
  | Listening => single_row (fst st)
  | _ => fst st = None \/ fst st = Some empty_table \/ single_row (fst st)
  end.

(** ** Further notions used by the properties below *)

(** The messages the two API handlers can put in an error body. *)
Definition api_error_messages : list string :=
  [msg_retrieve; msg_increment; msg_retrieve_new; msg_disappeared].

(** The requests among the events. *)
Fixpoint served (evs : list Event) : nat :=
  match evs with
  | [] => O
  | Serve _ _ _ :: evs' => S (served evs')
  | _ :: evs' => served evs'
  end.

(** Whether the UPDATE of a request has been applied: not while it is
    queued, and not when the request was answered with the message of the
    failed UPDATE. *)
Definition update_applied (rq : PostReq) : bool :=
  match rq with
  | AwaitUpdate _ => false
  | AwaitSelect _ => true
  | Responded res =>
      match sent res with
      | Some (SentJson [(_, JStr m)]) => negb (String.eqb m msg_increment)
      | _ => true
      end
  end.

Fixpoint applied_updates (pool : Pool) : nat :=
  match pool with
  | [] => O
  | rq :: pool' =>
      ((if update_applied rq then 1 else 0) + applied_updates pool')%nat
  end.

(** What a request in flight may look like when [n] UPDATEs have run on a
    value that was [V]: its response object is still the fresh one, or it
    has been answered 200 with what the driver makes of a cell between
    [V + 1] and [V + n]. *)
Definition in_flight_ok (V : Z) (n : nat) (rq : PostReq) : Prop :=
  match rq with
  | AwaitUpdate res => res = fresh_res
  | AwaitSelect res => res = fresh_res
  | Responded res =>
      exists v, res = ok_value (js_number v) /\ V + 1 <= v <= V + Z.of_nat n
  end.

(** ** The page served by GET / (the script of server.js, lines 275-364)

    The script keeps its state in three DOM elements; [Page] holds what it
    reads and writes of them.  What [fetch] settles to is an input of the
    model; the part of an async function before its first [await] and the
    part that runs once [fetch] has settled are two functions.  A body is
    either not JSON or an object of the shape the handlers send; a number
    of a body is the double that [JSON.parse] makes of its digits, and it is
    printed as [String] prints a double. *)

(** The decimal digits of an integer. *)
Definition exact_digits (n : Z) : string :=
  NilZero.string_of_int (Z.to_int n).

Definition digit_count (a : Z) : Z :=
  Z.of_nat (String.length (exact_digits a)).

Fixpoint zeros (k : nat) : string :=
  match k with
  | O => ""
  | S k' => String.append "0" (zeros k')
  end.

(** The digits that [Number::toString] picks for a positive double [x] of
    [n] decimal digits: the least [k] for which some [k]-digit [s] has
    [s * 10^(n-k)] round to [x], and for that [k] the [s] nearest to [x]
    (the even one on a tie).  Only the two [s] around [x / 10^(n-k)] can
    do; with one digit the upper one may be 10, that is 1 with one more
    place.  The result is [(s, k, n)]. *)
Fixpoint shortest_digits (fuel : nat) (k n x : Z) : Z * Z * Z :=
  match fuel with
  | O => (x, n, n)
  | S fuel' =>
      let p := 10 ^ (n - k) in
      let lo := x / p in
      let hi := lo + 1 in
      let lo_ok := Z.eqb (to_double (lo * p)) x in
      let hi_ok := Z.eqb (to_double (hi * p)) x in
      let hi_s := if Z.eqb hi (10 ^ k) then (1, 1, n + 1) else (hi, k, n) in
      let hi_fits := Z.ltb hi (10 ^ k) || Z.eqb k 1 in
      if lo_ok && (negb (hi_ok && hi_fits)) then (lo, k, n)
      else if hi_ok && hi_fits && negb lo_ok then hi_s
      else if lo_ok && hi_ok && hi_fits then
        if Z.ltb (x - lo * p) (hi * p - x) then (lo, k, n)
        else if Z.ltb (hi * p - x) (x - lo * p) then hi_s
        else if Z.even lo then (lo, k, n) else hi_s
      else shortest_digits fuel' (k + 1) n x
  end.

(** [String(x)] for the double [x] nearest to a positive integer [v]: the
    digits of [v] itself up to 2^53, where every integer is a double;
    beyond, the shortest digits that still denote [x], padded with zeros
    below 10^21 and in exponent form from there. *)
Definition positive_to_string (v : Z) : string :=
  if Z.leb v safe_max then exact_digits v
  else
    let x := to_double v in
    let n := digit_count x in
    let '(s, k, n') := shortest_digits (Z.to_nat n) 1 n x in
    let digits := exact_digits s in
    if Z.leb n' 21 then String.append digits (zeros (Z.to_nat (n' - k)))
    else
      match digits with
      | String d rest =>
          String.append
            (String d (if Z.eqb k 1 then "" else String.append "." rest))
            (String.append "e+" (exact_digits (n' - 1)))
      | EmptyString => digits
      end.

(** [String(n)] for the Number that the integer [n] denotes. *)
Definition decimal (n : Z) : string :=
  if Z.ltb n 0 then String.append "-" (positive_to_string (- n))
  else positive_to_string n.

(** [o[key]] on a parsed object: [None] is [undefined]. *)
Fixpoint json_get (key : string) (o : Json) : option JsonValue :=
  match o with
  | [] => None
  | (k, v) :: o' => if String.eqb k key then Some v else json_get key o'
  end.

(** JavaScript truthiness, as [||] tests it. *)
Definition truthy (v : option JsonValue) : bool :=
  match v with
  | Some (JNum n) => negb (Z.eqb n 0)
  | Some (JStr s) => negb (String.eqb s "")
  | None => false
  end.

Definition to_string (v : JsonValue) : string :=
  match v with
  | JNum n => decimal n
  | JStr s => s
  end.

(** What [el.textContent = v] leaves in the element; [undefined] clears it. *)
Definition text_content (v : option JsonValue) : string :=
  match v with
  | Some x => to_string x
  | None => ""
  end.

(** What [response.json()] settles to. *)
Inductive BodyJson : Type :=
| JsonOk (v : Json)
| JsonSyntaxError (message : string).

(** What [fetch] settles to: a rejection (no reply at all), or a reply. *)
Inductive Fetched : Type :=
| FetchFailed (message : string)
| Replied (status : Z) (body : BodyJson).

(** [response.ok]. *)
Definition response_ok (status : Z) : bool :=
  Z.leb 200 status && Z.leb status 299.

(** The message of [new Error(errorData.error || `HTTP error! Status: ...`)]. *)
Definition error_message (errorData : Json) (status : Z) : string :=
  if truthy (json_get "error" errorData)
  then text_content (json_get "error" errorData)
  else String.append "HTTP error! Status: " (decimal status).

(** The kind of request a page has in flight. *)
Inductive Kind : Type :=
| LoadReq
| IncReq.

Module Frontend.

Record Page : Type := mkPage {
  counterText : string;
  animating : bool;
  timers : nat;
  buttonDisabled : bool;
  statusText : string;
  statusClass : string
}.

(** The markup as served. *)
Definition initial_page : Page :=
  {| counterText := "0"; animating := false; timers := O;
     buttonDisabled := false; statusText := ""; statusClass := "" |}.

Definition set_counterText (t : string) (pg : Page) : Page :=
  {| counterText := t; animating := animating pg; timers := timers pg;
     buttonDisabled := buttonDisabled pg; statusText := statusText pg;
     statusClass := statusClass pg |}.

Definition set_disabled (b : bool) (pg : Page) : Page :=
  {| counterText := counterText pg; animating := animating pg;
     timers := timers pg; buttonDisabled := b; statusText := statusText pg;
     statusClass := statusClass pg |}.

Definition updateStatus (message type : string) (pg : Page) : Page :=
  {| counterText := counterText pg; animating := animating pg;
     timers := timers pg; buttonDisabled := buttonDisabled pg;
     statusText := message; statusClass := type |}.

(** Adds the class and arms a 200 ms timer. *)
Definition animateCounterDisplay (pg : Page) : Page :=
  {| counterText := counterText pg; animating := true;
     timers := S (timers pg); buttonDisabled := buttonDisabled pg;
     statusText := statusText pg; statusClass := statusClass pg |}.

(** The callback of that timer. *)
Definition animation_timeout (pg : Page) : Page :=
  {| counterText := counterText pg; animating := false;
     timers := pred (timers pg); buttonDisabled := buttonDisabled pg;
     statusText := statusText pg; statusClass := statusClass pg |}.

(** [fetchCounter] up to its [await fetch]. *)
Definition fetchCounter_begin (pg : Page) : Page :=
  set_disabled true (updateStatus "Loading counter..." "loading" pg).

(** The rest of the [try] block: the page, and the message of the error
    thrown, if one is. *)
Definition fetchCounter_try (r : Fetched) (pg : Page) : Page * option string :=
  match r with
  | FetchFailed m => (pg, Some m)
  | Replied status body =>
      if negb (response_ok status) then
        match body with
        | JsonSyntaxError m => (pg, Some m)
        | JsonOk errorData => (pg, Some (error_message errorData status))
        end
      else
        match body with
        | JsonSyntaxError m => (pg, Some m)
        | JsonOk data =>
            (updateStatus "Counter loaded successfully." "success"
               (set_counterText (text_content (json_get "value" data)) pg),
             None)
        end
  end.

(** [catch] and [finally]. *)
Definition fetchCounter_settle (r : Fetched) (pg : Page) : Page :=
  let '(pg1, thrown) := fetchCounter_try r pg in
  let pg2 :=
    match thrown with
    | Some m =>
        set_counterText "Error!"
          (updateStatus (String.append "Failed to load counter: " m) "error" pg1)
    | None => pg1
    end in
  set_disabled false pg2.

Definition fetchCounter (r : Fetched) (pg : Page) : Page :=
  fetchCounter_settle r (fetchCounter_begin pg).

(** [incrementCounter] up to its [await fetch]. *)
Definition incrementCounter_begin (pg : Page) : Page :=
  set_disabled true (updateStatus "Incrementing counter..." "loading" pg).

Definition incrementCounter_try (r : Fetched) (pg : Page)
  : Page * option string :=
  match r with
  | FetchFailed m => (pg, Some m)
  | Replied status body =>
      if negb (response_ok status) then
        match body with
        | JsonSyntaxError m => (pg, Some m)
        | JsonOk errorData => (pg, Some (error_message errorData status))
        end
      else
        match body with
        | JsonSyntaxError m => (pg, Some m)
        | JsonOk data =>
            (updateStatus "Counter incremented successfully!" "success"
               (animateCounterDisplay
                  (set_counterText (text_content (json_get "value" data)) pg)),
             None)
        end
  end.

Definition incrementCounter_settle (r : Fetched) (pg : Page) : Page :=
  let '(pg1, thrown) := incrementCounter_try r pg in
  let pg2 :=
    match thrown with
    | Some m =>
        updateStatus (String.append "Failed to increment counter: " m) "error" pg1
    | None => pg1
    end in
  set_disabled false pg2.

Definition incrementCounter (r : Fetched) (pg : Page) : Page :=
  incrementCounter_settle r (incrementCounter_begin pg).

(** *** The page over time

    [DOMContentLoaded] starts [fetchCounter]; afterwards the user clicks (a
    disabled button dispatches no click), requests in flight settle in any
    order, and armed timers fire. *)
Record Tab : Type := mkTab {
  page : Page;
  pending : list Kind
}.

Inductive TabEvent : Type :=
| Click
| Settle (i : nat) (r : Fetched)
| AnimationTimer.

Definition tab_start : Tab :=
  {| page := fetchCounter_begin initial_page; pending := [LoadReq] |}.

Definition tab_step (ev : TabEvent) (tab : Tab) : Tab :=
  match ev with
  | Click =>
      if buttonDisabled (page tab) then tab
      else {| page := incrementCounter_begin (page tab);
              pending := pending tab ++ [IncReq] |}
  | Settle i r =>
      match pending tab !! i with
      | Some LoadReq =>
          {| page := fetchCounter_settle r (page tab);
             pending := delete i (pending tab) |}
      | Some IncReq =>
          {| page := incrementCounter_settle r (page tab);
             pending := delete i (pending tab) |}
      | None => tab
      end
  | AnimationTimer =>
      match timers (page tab) with
      | O => tab
      | S _ => {| page := animation_timeout (page tab); pending := pending tab |}
      end
  end.

Definition tab_run (evs : list TabEvent) (tab : Tab) : Tab :=
  fold_left (fun t ev => tab_step ev t) evs tab.

End Frontend.

(** ** The page against the server *)

(** What the browser makes of a response of the application.  The texts
    the application sends (the 404 text, the page, an error page of the
    body parser) are not JSON: [response.json()] rejects on them, with a
    message that is the browser's. *)
Definition wire (syntax_error : string) (res : Response) : Fetched :=
  match sent res with
  | Some (SentJson v) => Replied (statusCode res) (JsonOk v)
  | _ => Replied (statusCode res) (JsonSyntaxError syntax_error)
  end.

(** [fetch('/api/counter')] and the POST of [incrementCounter]. *)
Definition get_request : Request :=
  {| method := "GET"; originalUrl := "/api/counter";
     body := BodyPassed |}.
Definition post_request : Request :=
  {| method := "POST"; originalUrl := "/api/counter/increment";
     body := BodyPassed |}.

Section Visit.

Variable route_matches : string -> string -> Request -> bool.
Variable frontend_html : string.
Variable syntax_error : string.

(** The page loads: [fetchCounter] against the application. *)
Definition visit (f : fault) (sp : Store * Frontend.Page)
  : Store * Frontend.Page :=
  let '(s', res) :=
    app_handle route_matches frontend_html f None get_request fresh_res (fst sp) in
  (s', Frontend.fetchCounter (wire syntax_error res) (snd sp)).

(** The button is clicked: [incrementCounter] against the application. *)
Definition click (fu fs : fault) (sp : Store * Frontend.Page)
  : Store * Frontend.Page :=
  let '(s', res) :=
    app_handle route_matches frontend_html fu fs post_request fresh_res (fst sp) in
  (s', Frontend.incrementCounter (wire syntax_error res) (snd sp)).

(** [n] clicks, each after the previous one has settled, none meeting a
    storage fault. *)
Fixpoint clicks (n : nat) (sp : Store * Frontend.Page)
  : Store * Frontend.Page :=
  match n with
  | O => sp
  | S n' => clicks n' (click None None sp)
  end.

End Visit.

(** A router that takes the two requests of the page as the routes written
    for them. *)
Definition routes_page_requests
  (route_matches : string -> string -> Request -> bool) : Prop :=
  route_matches "GET" "/api/counter" get_request = true /\
  route_matches "GET" "/api/counter" post_request = false /\
  route_matches "POST" "/api/counter/increment" post_request = true.

(** ** The standalone page (src/unnamed/part_000, lines 71-191)

    The same two functions, written against Tailwind classes: the state of
    a request shows in the colour class of the status line, and 3 s after a
    function has ended a timer clears the status line if it still reads as
    an outcome. *)

(** [s.includes(needle)]. *)
Definition includes (needle s : string) : bool :=
  match String.index 0 needle s with
  | Some _ => true
  | None => false
  end.

(** A [classList]: an ordered set of tokens. *)
Definition contains (tok : string) (cl : list string) : bool :=
  existsb (String.eqb tok) cl.

Definition classList_add (tok : string) (cl : list string) : list string :=
  if contains tok cl then cl else cl ++ [tok].

Definition classList_remove (tok : string) (cl : list string) : list string :=
  List.filter (fun t => negb (String.eqb tok t)) cl.

Module IndexPage.

Record Page : Type := mkPage {
  counterText : string;
  buttonDisabled : bool;
  buttonClasses : list string;
  statusText : string;
  statusClasses : list string
}.

(** The markup of part_000. *)
Definition initial_page : Page :=
  {| counterText := "0";
     buttonDisabled := false;
     buttonClasses :=
       ["bg-blue-500"; "hover:bg-blue-700"; "text-white"; "font-semibold";
        "py-3"; "px-6"; "rounded-lg"; "transition"; "duration-300";
        "ease-in-out"; "transform"; "hover:scale-105"; "focus:outline-none";
        "focus:ring-4"; "focus:ring-blue-300"; "focus:ring-opacity-75"];
     statusText := "";
     statusClasses := ["text-sm"; "text-gray-600"; "mt-2"; "min-h-[1.25rem]"] |}.

Definition set_counterText (t : string) (pg : Page) : Page :=
  {| counterText := t; buttonDisabled := buttonDisabled pg;
     buttonClasses := buttonClasses pg; statusText := statusText pg;
     statusClasses := statusClasses pg |}.

Definition set_statusText (t : string) (pg : Page) : Page :=
  {| counterText := counterText pg; buttonDisabled := buttonDisabled pg;
     buttonClasses := buttonClasses pg; statusText := t;
     statusClasses := statusClasses pg |}.

Definition set_statusClasses (cl : list string) (pg : Page) : Page :=
  {| counterText := counterText pg; buttonDisabled := buttonDisabled pg;
     buttonClasses := buttonClasses pg; statusText := statusText pg;
     statusClasses := cl |}.

Definition set_button (disabled : bool) (cl : list string) (pg : Page) : Page :=
  {| counterText := counterText pg; buttonDisabled := disabled;
     buttonClasses := cl; statusText := statusText pg;
     statusClasses := statusClasses pg |}.

(** The three recolourings of the status line. *)
Definition status_gray (pg : Page) : Page :=
  set_statusClasses
    (classList_add "text-gray-600"
       (classList_remove "text-green-500"
          (classList_remove "text-red-500" (statusClasses pg)))) pg.

Definition status_green (pg : Page) : Page :=
  set_statusClasses
    (classList_add "text-green-500"
       (classList_remove "text-gray-600" (statusClasses pg))) pg.

Definition status_red (pg : Page) : Page :=
  set_statusClasses
    (classList_add "text-red-500"
       (classList_remove "text-green-500"
          (classList_remove "text-gray-600" (statusClasses pg)))) pg.

(** The error thrown for a reply that is not ok; a body that is not JSON
    counts as [{ error: 'Unknown error' }]. *)
Definition reply_error (status : Z) (body : BodyJson) : string :=
  match body with
  | JsonSyntaxError _ => error_message [("error", JStr "Unknown error")] status
  | JsonOk errorData => error_message errorData status
  end.

(** [fetchCounter] up to its [await fetch]: the button is left alone. *)
Definition fetchCounter_begin (pg : Page) : Page :=
  status_gray (set_statusText "Loading counter..." pg).

Definition fetchCounter_try (r : Fetched) (pg : Page) : Page * option string :=
  match r with
  | FetchFailed m => (pg, Some m)
  | Replied status body =>
      if negb (response_ok status) then (pg, Some (reply_error status body))
      else
        match body with
        | JsonSyntaxError m => (pg, Some m)
        | JsonOk data =>
            (status_green
               (set_statusText "Counter loaded successfully."
                  (set_counterText (text_content (json_get "value" data)) pg)),
             None)
        end
  end.

(** [catch]; the [finally] block only arms the timer. *)
Definition fetchCounter_settle (r : Fetched) (pg : Page) : Page :=
  let '(pg1, thrown) := fetchCounter_try r pg in
  match thrown with
  | Some m =>
      status_red
        (set_statusText (String.append "Failed to load counter: " m)
           (set_counterText "Error!" pg1))
  | None => pg1
  end.

(** The callback of the timer armed by [fetchCounter]. *)
Definition fetchCounter_timer (pg : Page) : Page :=
  if includes "successfully" (statusText pg) || includes "Error" (statusText pg)
  then set_statusText "" pg
  else pg.

Definition fetchCounter (r : Fetched) (pg : Page) : Page :=
  fetchCounter_settle r (fetchCounter_begin pg).

Definition incrementCounter_begin (pg : Page) : Page :=
  let pg1 := status_gray (set_statusText "Incrementing..." pg) in
  set_button true
    (classList_add "cursor-not-allowed"
       (classList_add "opacity-50" (buttonClasses pg1))) pg1.

Definition incrementCounter_try (r : Fetched) (pg : Page)
  : Page * option string :=
  match r with
  | FetchFailed m => (pg, Some m)
  | Replied status body =>
      if negb (response_ok status) then (pg, Some (reply_error status body))
      else
        match body with
        | JsonSyntaxError m => (pg, Some m)
        | JsonOk data =>
            (status_green
               (set_statusText "Counter incremented successfully!"
                  (set_counterText (text_content (json_get "value" data)) pg)),
             None)
        end
  end.

Definition incrementCounter_settle (r : Fetched) (pg : Page) : Page :=
  let '(pg1, thrown) := incrementCounter_try r pg in
  let pg2 :=
    match thrown with
    | Some m =>
        status_red
          (set_statusText (String.append "Failed to increment counter: " m) pg1)
    | None => pg1
    end in
  set_button false
    (classList_remove "cursor-not-allowed"
       (classList_remove "opacity-50" (buttonClasses pg2))) pg2.

(** The callback of the timer armed by [incrementCounter]. *)
Definition incrementCounter_timer (pg : Page) : Page :=
  if includes "successfully" (statusText pg) || includes "Failed" (statusText pg)
  then set_statusText "" pg
  else pg.

Definition incrementCounter (r : Fetched) (pg : Page) : Page :=
  incrementCounter_settle r (incrementCounter_begin pg).

(** *** The page over time *)
Record Tab : Type := mkTab {
  page : Page;
  pending : list Kind;
  armed : list Kind
}.

Inductive TabEvent : Type :=
| Click
| Settle (i : nat) (r : Fetched)
| Timer (i : nat).

Definition tab_start : Tab :=
  {| page := fetchCounter_begin initial_page; pending := [LoadReq];
     armed := [] |}.

Definition tab_step (ev : TabEvent) (tab : Tab) : Tab :=
  match ev with
  | Click =>
      if buttonDisabled (page tab) then tab
      else {| page := incrementCounter_begin (page tab);
              pending := pending tab ++ [IncReq]; armed := armed tab |}
  | Settle i r =>
      match pending tab !! i with
      | Some LoadReq =>
          {| page := fetchCounter_settle r (page tab);
             pending := delete i (pending tab);
             armed := armed tab ++ [LoadReq] |}
      | Some IncReq =>
          {| page := incrementCounter_settle r (page tab);
             pending := delete i (pending tab);
             armed := armed tab ++ [IncReq] |}
      | None => tab
      end
  | Timer i =>
      match armed tab !! i with
      | Some LoadReq =>
          {| page := fetchCounter_timer (page tab); pending := pending tab;
             armed := delete i (armed tab) |}
      | Some IncReq =>
          {| page := incrementCounter_timer (page tab); pending := pending tab;
             armed := delete i (armed tab) |}
      | None => tab
      end
  end.

Definition tab_run (evs : list TabEvent) (tab : Tab) : Tab :=
  fold_left (fun t ev => tab_step ev t) evs tab.

End IndexPage.

Section StandaloneVisit.

Variable route_matches : string -> string -> Request -> bool.
Variable frontend_html : string.
Variable syntax_error : string.

(** The standalone page loads against the application. *)
Definition standalone_visit (f : fault) (sp : Store * IndexPage.Page)
  : Store * IndexPage.Page :=
  let '(s', res) :=
    app_handle route_matches frontend_html f None get_request fresh_res (fst sp) in
  (s', IndexPage.fetchCounter (wire syntax_error res) (snd sp)).

(** A click made while the load is in flight, the application answering
    the GET before the POST and the reply to the POST arriving first. *)
Definition click_during_load (s : Store) : Store * IndexPage.Tab :=
  let '(s1, got) :=
    app_handle route_matches frontend_html None None get_request fresh_res s in
  let '(s2, posted) :=
    app_handle route_matches frontend_html None None post_request fresh_res s1 in
  (s2,
   IndexPage.tab_run
     [IndexPage.Click;
      IndexPage.Settle 1 (wire syntax_error posted);
      IndexPage.Settle 0 (wire syntax_error got)]
     IndexPage.tab_start).

End StandaloneVisit.

(** * Properties *)

(** ** Numbers *)

Lemma sql_add1_integer (v : Z) :
  int64_min <= v <= int64_max -> sql_add1 v = v + 1.
Proof.
  intros Hv. unfold sql_add1, is_integer.
  destruct (Z.leb_spec int64_min v), (Z.leb_spec v int64_max);
    simpl; try reflexivity; lia.
Qed.

Lemma sql_add1_cases (v : Z) : sql_add1 v = v \/ sql_add1 v = v + 1.
Proof. unfold sql_add1. destruct (is_integer v); auto. Qed.

Lemma to_double_safe (v : Z) :
  - safe_max <= v <= safe_max -> to_double v = v.
Proof.
  intros Hv. unfold to_double.
  destruct (Z.leb_spec (Z.abs v) safe_max); [reflexivity | lia].
Qed.

Ltac bounds := unfold int64_min, int64_max, safe_max in *; lia.

(** ** The storage calls *)

Lemma stored_value_table (s : Store) (v : Z) :
  stored_value s = Some v -> exists t, s = Some t /\ rows t !! 1 = Some v.
Proof.
  destruct s as [t|]; simpl; intros H; [eauto | discriminate].
Qed.

Lemma update_adds_one (s : Store) (v : Z) :
  stored_value s = Some v ->
  exists s', sql_update_increment None s = (s', DbOk tt) /\
             stored_value s' = Some (sql_add1 v).
Proof.
  intros (t & -> & Ht)%stored_value_table. eexists; split; [reflexivity|].
  simpl. by rewrite lookup_alter_eq, Ht.
Qed.

Lemma update_without_row (t : Table) :
  rows t !! 1 = None -> sql_update_increment None (Some t) = (Some t, DbOk tt).
Proof.
  intros Ht. destruct t as [m q]; simpl in *.
  rewrite alter_id; [reflexivity|]. intros x Hx. congruence.
Qed.

Lemma select_reads (f : fault) (s : Store) : fst (sql_select_value f s) = s.
Proof. by destruct f, s. Qed.

Lemma select_value_ok (s : Store) (v : Z) :
  stored_value s = Some v -> sql_select_value None s = (s, DbOk (Some v)).
Proof. intros (t & -> & Ht)%stored_value_table. simpl. by rewrite Ht. Qed.

(** ** Sequential requests *)

Lemma increment_ok (s : Store) (V : Z) :
  stored_value s = Some V ->
  exists s',
    api_counter_increment None None fresh_res s
    = (s', ok_value (js_number (sql_add1 V))) /\
    stored_value s' = Some (sql_add1 V).
Proof.
  intros HV. destruct (update_adds_one s V HV) as (s' & Hup & HV').
  exists s'. unfold api_counter_increment. rewrite Hup.
  by rewrite (select_value_ok s' _ HV').
Qed.





Lemma increments_stored (N : nat) : forall (s : Store) (V : Z),
  stored_value s = Some V ->
  int64_min <= V ->
  V + Z.of_nat N <= int64_max + 1 ->
  stored_value (increments N s) = Some (V + Z.of_nat N).
Proof.
  induction N as [|N IH]; intros s V HV Hlo Hhi.
  - simpl. by rewrite Z.add_0_r.
  - destruct (increment_ok s V HV) as (s' & Hrun & HV').
    rewrite sql_add1_integer in HV' by lia.
    cbn [increments]. rewrite Hrun. cbn [fst].
    rewrite (IH s' (V + 1) HV') by lia. f_equal. lia.
Qed.

(** C2, amended.  From a stored INTEGER [V], after [N] POST
    /api/counter/increment requests served one after the other without
    storage error, with [V + N] at most 2^63, GET /api/counter answers 200
    with the body [{"value": d}], where [d] is the double nearest to
    [V + N]; up to 2^53 in magnitude [d] is [V + N] itself. *)
Theorem get_after_increments (s : Store) (V : Z) (N : nat) :
  stored_value s = Some V ->
  int64_min <= V ->
  V + Z.of_nat N <= int64_max + 1 ->
  api_counter_get None fresh_res (increments N s)
  = (increments N s, ok_value (js_number (V + Z.of_nat N))) /\
  (- safe_max <= V + Z.of_nat N <= safe_max ->
   js_number (V + Z.of_nat N) = V + Z.of_nat N).
Proof.
  intros HV Hlo Hhi. split; [|apply to_double_safe].
  unfold api_counter_get.
  by rewrite (select_value_ok _ _ (increments_stored N s V HV Hlo Hhi)).
Qed.

Lemma get_after_increments_witness :
  stored_value (Some {| rows := {[1 := 4]}; seq := 1 |}) = Some 4 /\
  int64_min <= 4 /\
  4 + Z.of_nat 3 <= int64_max + 1 /\
  api_counter_get None fresh_res
    (increments 3 (Some {| rows := {[1 := 4]}; seq := 1 |}))
  = (increments 3 (Some {| rows := {[1 := 4]}; seq := 1 |}),
     ok_value (js_number (4 + Z.of_nat 3))) /\
  (- safe_max <= 4 + Z.of_nat 3 <= safe_max ->
   js_number (4 + Z.of_nat 3) = 4 + Z.of_nat 3).
Proof.
  assert (int64_min <= 4) as Hlo by (vm_compute; discriminate).
  assert (4 + Z.of_nat 3 <= int64_max + 1) as Hhi by (vm_compute; discriminate).
  split; [reflexivity|]. split; [exact Hlo|]. split; [exact Hhi|].
  apply (get_after_increments (Some {| rows := {[1 := 4]}; seq := 1 |}) 4 3);
    [reflexivity | exact Hlo | exact Hhi].
Defined.

(** C2 as it was stated fails at [V] = 2^53, [N] = 1: the row holds
    2^53 + 1 and GET answers 2^53. *)
Lemma get_after_increment_at_2_53 :
  let V := 9007199254740992 in
  let s := Some {| rows := {[1 := V]}; seq := 1 |} in
  stored_value s = Some V /\
  stored_value (increments 1 s) = Some (V + 1) /\
  snd (api_counter_get None fresh_res (increments 1 s)) = ok_value V /\
  snd (api_counter_get None fresh_res (increments 1 s))
  <> ok_value (V + Z.of_nat 1).
Proof.
  cbv zeta. split; [reflexivity|]. split; [vm_compute; reflexivity|].
  split; [vm_compute; reflexivity|].
  intros H. apply (f_equal sent) in H. vm_compute in H. discriminate H.
Qed.

(** ** Startup on an empty store *)

Lemma row_count_0 (s : Store) :
  row_count s = O -> s = None \/ exists q, s = Some {| rows := ∅; seq := q |}.
Proof.
  destruct s as [[m q]|]; simpl; [|by left].
  intros ->%map_size_empty_inv. right. by exists q.
Qed.

Lemma max_rowid_empty : max_rowid ∅ = 0.
Proof. unfold max_rowid. apply map_fold_empty. Qed.

Lemma init_empty_resolved (fs : InitFaults) (s s' : Store) :
  row_count s = O ->
  initializeDatabase fs s = (s', Resolved) ->
  exists id, s' = Some {| rows := {[id := 0]}; seq := id |}.
Proof.
  intros Hs. unfold initializeDatabase.
  destruct fs as [[?|] [?|] [?|] [?|]]; simpl; try discriminate;
    destruct (row_count_0 s Hs) as [-> | [q ->]]; simpl;
    rewrite ?map_size_empty; simpl; try discriminate.
  - rewrite max_rowid_empty. simpl. intros [= <-]. eexists.
    by rewrite insert_empty.
  - rewrite max_rowid_empty.
    destruct (Z.ltb (Z.max q 0) int64_max); [|discriminate].
    intros [= <-]. eexists. by rewrite insert_empty.
Qed.

Lemma get_singleton_zero (id q : Z) :
  api_counter_get None fresh_res (Some {| rows := {[id := 0]}; seq := q |})
  = (Some {| rows := {[id := 0]}; seq := q |}, ok_value 0).
Proof.
  unfold api_counter_get; simpl. rewrite lookup_singleton.
  by case_decide.
Qed.

(** C3. On a store without rows the initialization, when nothing fails,
    completes (as long as the AUTOINCREMENT mark of an emptied table has
    not reached the largest id); and however it completes, the GET
    /api/counter that follows answers 200 with the body [{"value": 0}]. *)
Theorem get_after_first_startup (s : Store) :
  row_count s = O ->
  ((forall t, s = Some t -> seq t < int64_max) ->
   exists s', initializeDatabase no_faults s = (s', Resolved)) /\
  (forall fs s',
      initializeDatabase fs s = (s', Resolved) ->
      api_counter_get None fresh_res s' = (s', ok_value 0)).
Proof.
  intros Hs. split.
  - intros Hmark.
    destruct (row_count_0 s Hs) as [-> | [q ->]]; unfold initializeDatabase;
      simpl; rewrite ?map_size_empty; simpl; rewrite max_rowid_empty.
    + simpl. eauto.
    + specialize (Hmark _ eq_refl). simpl in Hmark.
      destruct (Z.ltb_spec (Z.max q 0) int64_max); [eauto | bounds].
  - intros fs s' Hinit.
    destruct (init_empty_resolved fs s s' Hs Hinit) as [id ->].
    apply get_singleton_zero.
Qed.

Lemma get_after_first_startup_witness :
  row_count None = O /\
  ((forall t, @None Table = Some t -> seq t < int64_max) ->
   exists s', initializeDatabase no_faults None = (s', Resolved)) /\
  (forall fs s',
      initializeDatabase fs None = (s', Resolved) ->
      api_counter_get None fresh_res s' = (s', ok_value 0)).
Proof.
  split; [reflexivity|].
  apply (get_after_first_startup None). reflexivity.
Defined.

(** ** The read endpoint changes nothing *)

Lemma get_reads_only (f : fault) (res : Response) (s : Store) :
  fst (api_counter_get f res s) = s.
Proof.
  unfold api_counter_get.
  pose proof (select_reads f s) as H.
  destruct (sql_select_value f s) as [s1 r]. exact H.
Qed.

(** C10. GET /api/counter leaves the store as it found it, whichever of its
    branches answers (value, default, or error). *)
Theorem get_leaves_store_unchanged (f : fault) (res : Response) (s : Store) :
  fst (api_counter_get f res s) = s.
Proof. apply get_reads_only. Qed.

(** ** A store whose row 1 is missing *)

Lemma increment_always_500_without_row (t : Table) (fu fs : fault) :
  rows t !! 1 = None ->
  exists s' msg, api_counter_increment fu fs fresh_res (Some t) = (s', error_500 msg).
Proof.
  intros Ht. unfold api_counter_increment.
  destruct fu as [m|].
  - simpl. eauto.
  - rewrite (update_without_row t Ht). destruct fs as [m|]; simpl.
    + eauto.
    + rewrite Ht. eauto.
Qed.

(** C7. When the table exists and has no row with id 1, GET /api/counter
    answers 200 with [{"value": 0}], whereas POST /api/counter/increment
    answers 500 with an error body, whatever happens in the store: with no
    storage fault the message is that the row disappeared, and the store is
    left as it was. *)
Theorem missing_row_read_defaults_increment_fails (t : Table) :
  rows t !! 1 = None ->
  api_counter_get None fresh_res (Some t) = (Some t, ok_value 0) /\
  api_counter_increment None None fresh_res (Some t)
  = (Some t, error_500 msg_disappeared) /\
  (forall fu fs, exists s' msg,
      api_counter_increment fu fs fresh_res (Some t) = (s', error_500 msg)).
Proof.
  intros Ht. split; [|split].
  - unfold api_counter_get; simpl. by rewrite Ht.
  - unfold api_counter_increment. rewrite (update_without_row t Ht).
    simpl. by rewrite Ht.
  - intros fu fs. by apply increment_always_500_without_row.
Qed.

Lemma missing_row_witness :
  let t := {| rows := {[2 := 9]}; seq := 2 |} in
  rows t !! 1 = None /\
  api_counter_get None fresh_res (Some t) = (Some t, ok_value 0) /\
  api_counter_increment None None fresh_res (Some t)
  = (Some t, error_500 msg_disappeared) /\
  (forall fu fs, exists s' msg,
      api_counter_increment fu fs fresh_res (Some t) = (s', error_500 msg)).
Proof.
  cbv zeta. split; [reflexivity|].
  apply (missing_row_read_defaults_increment_fails
           {| rows := {[2 := 9]}; seq := 2 |}).
  reflexivity.
Defined.

(** ** Storage failures of the increment endpoint *)

Lemma increment_update_failure (m : string) (fs : fault) (res : Response)
  (s : Store) :
  api_counter_increment (Some m) fs res s
  = (s, res_json (error_body msg_increment) (res_status 500 res)).
Proof. reflexivity. Qed.

Lemma increment_select_failure (m : string) (s : Store) (V : Z) :
  stored_value s = Some V ->
  exists s', api_counter_increment None (Some m) fresh_res s
             = (s', error_500 msg_retrieve_new) /\
             stored_value s' = Some (sql_add1 V).
Proof.
  intros HV. destruct (update_adds_one s V HV) as (s' & Hup & HV').
  exists s'. unfold api_counter_increment. rewrite Hup. by destruct s'.
Qed.

(** C4, at the input where it fails.  The row holds 41, the UPDATE succeeds
    and the SELECT that follows is failed by the storage layer: the answer
    is 500, its body carries the message of the SELECT branch, not
    "Failed to increment counter value.", and the row holds 42. *)
Theorem increment_select_failure_answers_other_message :
  let s := Some {| rows := {[1 := 41]}; seq := 1 |} in
  let out := api_counter_increment None (Some "SQLITE_IOERR: disk I/O error")
               fresh_res s in
  snd out = error_500 "Failed to retrieve new counter value." /\
  snd out <> error_500 "Failed to increment counter value." /\
  stored_value (fst out) = Some 42.
Proof.
  cbv zeta. split; [reflexivity|]. split; [|reflexivity].
  intros H. apply (f_equal sent) in H. vm_compute in H. discriminate H.
Qed.

(** ** Routing *)

Section RoutingFacts.

Variable route_matches : string -> string -> Request -> bool.
Variable frontend_html : string.

Local Abbreviation handle := (app_handle route_matches frontend_html).

(** C5, amended.  A request whose body [express.json()] lets through and
    that none of the three routes takes is answered 404 with the text
    "404: Not Found", sent as a string with no content type chosen by the
    handler; the store is untouched. *)
Theorem unmatched_request_404 (fu fs : fault) (req : Request) (s : Store) :
  body req = BodyPassed ->
  route_matches "GET" "/api/counter" req = false ->
  route_matches "POST" "/api/counter/increment" req = false ->
  route_matches "GET" "/" req = false ->
  handle fu fs req fresh_res s
  = (s, {| statusCode := 404; contentType := None;
           sent := Some (SentText "404: Not Found") |}).
Proof.
  intros Hbody H1 H2 H3. unfold app_handle. by rewrite Hbody, H1, H2, H3.
Qed.

(** What a request can do to the store: nothing, or the UPDATE. *)
Lemma handle_store (fu fs : fault) (req : Request) (res : Response)
  (s : Store) :
  fst (handle fu fs req res s) = s \/
  fst (handle fu fs req res s) = fst (sql_update_increment fu s).
Proof.
  unfold app_handle. destruct (body req) as [|status page]; [|by left].
  destruct (route_matches "GET" "/api/counter" req).
  { left. apply get_reads_only. }
  destruct (route_matches "POST" "/api/counter/increment" req).
  { right. unfold api_counter_increment.
    destruct (sql_update_increment fu s) as [s1 [[]|m]]; [|reflexivity].
    cbn [fst]. pose proof (select_reads fs s1) as H.
    by destruct (sql_select_value fs s1). }
  destruct (route_matches "GET" "/" req); by left.
Qed.

End RoutingFacts.

Lemma unmatched_request_404_witness :
  let req := {| method := "DELETE"; originalUrl := "/api/counter";
                body := BodyPassed |} in
  body req = BodyPassed /\
  exact_route "GET" "/api/counter" req = false /\
  exact_route "POST" "/api/counter/increment" req = false /\
  exact_route "GET" "/" req = false /\
  app_handle exact_route "<!DOCTYPE html>" None None req fresh_res None
  = (None, {| statusCode := 404; contentType := None;
              sent := Some (SentText "404: Not Found") |}).
Proof.
  cbv zeta. do 4 (split; [reflexivity|]).
  apply (unmatched_request_404 exact_route); reflexivity.
Defined.

(** C5 as it was stated fails in two ways.  The body of the 404 answer is
    not the bare text "Not Found".  And a request for a path without route
    whose JSON body the parser refuses is answered by the parser's error
    (here 400), not by the fallback. *)
Lemma unmatched_body_is_not_bare_not_found :
  let req := {| method := "GET"; originalUrl := "/nowhere";
                body := BodyPassed |} in
  let bad := {| method := "POST"; originalUrl := "/nowhere";
                body := BodyRefused 400 "Bad Request" |} in
  (exact_route "GET" "/api/counter" req = false /\
   exact_route "POST" "/api/counter/increment" req = false /\
   exact_route "GET" "/" req = false /\
   statusCode (snd (app_handle exact_route "<!DOCTYPE html>" None None req
                      fresh_res None)) = 404 /\
   sent (snd (app_handle exact_route "<!DOCTYPE html>" None None req
                fresh_res None))
   <> Some (SentText "Not Found")) /\
  (exact_route "GET" "/api/counter" bad = false /\
   exact_route "POST" "/api/counter/increment" bad = false /\
   exact_route "GET" "/" bad = false /\
   statusCode (snd (app_handle exact_route "<!DOCTYPE html>" None None bad
                      fresh_res None)) = 400).
Proof.
  cbv zeta. split.
  - do 4 (split; [reflexivity|]).
    intros H. vm_compute in H. discriminate H.
  - by repeat split.
Qed.

(** ** Initialization *)

Lemma init_call_fails_rejects (fs : InitFaults) (s : Store) :
  init_call_fails fs s ->
  exists s' m, initializeDatabase fs s = (s', Rejected m).
Proof.
  unfold init_call_fails, initializeDatabase.
  destruct fs as [fo fc fn fi]; cbn [on_open on_create on_count on_insert].
  destruct fo as [m|]; [simpl; eauto|].
  destruct fc as [m|]; [simpl; eauto|].
  destruct fn as [m|]; [destruct s; simpl; eauto|].
  intros [[? [=]] | [[? [=]] | [[? [=]] | [Hs [m ->]]]]].
  destruct (row_count_0 s Hs) as [-> | [q ->]]; simpl;
    rewrite ?map_size_empty; simpl; eauto.
Qed.

(** A store that has its row 1 is not touched by initialization. *)
Lemma init_keeps_row (fs : InitFaults) (s : Store) (v : Z) :
  stored_value s = Some v -> fst (initializeDatabase fs s) = s.
Proof.
  intros (t & -> & Ht)%stored_value_table.
  assert (Z.eqb (Z.of_nat (size (rows t))) 0 = false) as Hn.
  { apply Z.eqb_neq. pose proof (map_size_ne_0_lookup_2 (rows t) 1) as H.
    specialize (H (ex_intro _ v Ht)). lia. }
  unfold initializeDatabase.
  destruct fs as [[?|] [?|] [?|] fi]; simpl; try reflexivity.
  by rewrite Hn.
Qed.

Lemma main_store (fs : InitFaults) (s : Store) :
  fst (main fs s) = fst (initializeDatabase fs s).
Proof. unfold main. by destruct (initializeDatabase fs s) as [s' []]. Qed.

Lemma single_row_value (s : Store) :
  single_row s -> row_count s = 1%nat /\ is_Some (stored_value s).
Proof.
  intros [v ->]. simpl. rewrite map_size_singleton, lookup_singleton_eq. eauto.
Qed.

Lemma main_inv (fs : InitFaults) (s : Store) :
  s = None \/ s = Some empty_table \/ single_row s -> sys_inv (main fs s).
Proof.
  intros [-> | [-> | Hrow]].
  - destruct fs as [[?|] [?|] [?|] [?|]]; vm_compute; eauto.
  - destruct fs as [[?|] [?|] [?|] [?|]]; vm_compute; eauto.
  - destruct (single_row_value s Hrow) as [_ [v Hv]].
    pose proof (init_keeps_row fs s v Hv) as Hfst.
    unfold main, sys_inv. destruct (initializeDatabase fs s) as [s' []];
      simpl in *; subst s'; auto.
Qed.

Section SystemFacts.

Variable route_matches : string -> string -> Request -> bool.
Variable frontend_html : string.

Local Abbreviation step := (sys_step route_matches frontend_html).
Local Abbreviation trace := (run route_matches frontend_html).

Lemma serve_single_row (fu fs : fault) (req : Request) (s : Store) :
  single_row s ->
  single_row (fst (app_handle route_matches frontend_html fu fs req fresh_res s)).
Proof.
  intros Hrow.
  destruct (handle_store route_matches frontend_html fu fs req fresh_res s)
    as [-> | ->]; [done|].
  destruct fu as [m|]; [done|]. destruct Hrow as [v ->]. simpl.
  rewrite alter_singleton_eq. by eexists.
Qed.

Lemma step_inv (ev : Event) (st st' : System) :
  sys_inv st -> step ev st = Some st' -> sys_inv st'.
Proof.
  destruct st as [s p]. unfold sys_inv, sys_step. cbn [fst snd].
  destruct ev as [fs | req fu fs |], p; intros Hinv [= <-]; cbn [fst snd];
    try (by apply main_inv); try (by apply serve_single_row); auto.
Qed.

Lemma trace_inv (evs : list Event) : forall st st' : System,
  sys_inv st -> trace evs st = Some st' -> sys_inv st'.
Proof.
  induction evs as [|ev evs IH]; intros st st' Hinv; simpl.
  - by intros [= <-].
  - destruct (step ev st) as [st1|] eqn:Hstep; [|discriminate].
    apply IH. by apply (step_inv ev st).
Qed.

(** One event moves the stored value by nothing or by one. *)
Lemma step_value (ev : Event) (st st' : System) (v : Z) :
  stored_value (fst st) = Some v ->
  step ev st = Some st' ->
  stored_value (fst st') = Some v \/ stored_value (fst st') = Some (v + 1).
Proof.
  destruct st as [s p]. unfold sys_step. cbn [fst snd]. intros Hv.
  destruct ev as [fs | req fu fs |], p; intros [= <-]; cbn [fst snd]; auto.
  - left. by rewrite main_store, (init_keeps_row _ _ _ Hv).
  - left. by rewrite main_store, (init_keeps_row _ _ _ Hv).
  - destruct (handle_store route_matches frontend_html fu fs req fresh_res s)
      as [-> | ->]; [by left|].
    destruct fu as [m|]; [by left|].
    destruct (update_adds_one s v Hv) as (s' & -> & Hv'). cbn [fst].
    rewrite Hv'. destruct (sql_add1_cases v) as [-> | ->]; auto.
Qed.

(** C6. In every state the system reaches from its first launch on, a
    listening process finds exactly one row in the table, the row with
    id 1; and every event (a request, a stop, a launch) leaves the stored
    value as it is or adds one to it. *)
Theorem one_row_and_monotone (evs : list Event) (st : System) :
  trace evs boot = Some st ->
  (snd st = Listening ->
   row_count (fst st) = 1%nat /\ is_Some (stored_value (fst st))) /\
  (forall ev st' v,
      stored_value (fst st) = Some v ->
      step ev st = Some st' ->
      stored_value (fst st') = Some v \/ stored_value (fst st') = Some (v + 1)).
Proof.
  intros Hrun. split.
  - intros Hp. apply single_row_value.
    assert (sys_inv st) as Hinv.
    { apply (trace_inv evs boot); [|done]. by left. }
    unfold sys_inv in Hinv. by rewrite Hp in Hinv.
  - intros ev st' v Hv Hstep. by apply (step_value ev st).
Qed.

(** C8. When a storage call of the initialization fails (the open, the
    table creation, the row count, or the first insert), the process exits
    with code 1 without having started the listener, and no request is
    served by it. *)
Theorem failed_startup_never_serves (fs : InitFaults) (s : Store) :
  init_call_fails fs s ->
  exists s',
    main fs s = (s', Exited 1) /\
    snd (main fs s) <> Listening /\
    (forall req fu fs', step (Serve req fu fs') (main fs s) = None).
Proof.
  intros (s' & m & Hinit)%init_call_fails_rejects.
  exists s'. unfold main. rewrite Hinit. by repeat split.
Qed.

(** The listener runs exactly when the promise resolved. *)
Lemma listening_iff_resolved (fs : InitFaults) (s : Store) :
  snd (main fs s) = Listening <-> snd (initializeDatabase fs s) = Resolved.
Proof.
  unfold main. destruct (initializeDatabase fs s) as [s' [|m]]; simpl;
    split; congruence.
Qed.

End SystemFacts.

Lemma one_row_and_monotone_witness :
  let increment := post_request in
  let evs := [Launch no_faults; Serve increment None None; Halt;
              Launch no_faults] in
  let st := (Some {| rows := {[1 := 1]}; seq := 1 |}, Listening) in
  run exact_route "<!DOCTYPE html>" evs boot = Some st /\
  (snd st = Listening ->
   row_count (fst st) = 1%nat /\ is_Some (stored_value (fst st))) /\
  (forall ev st' v,
      stored_value (fst st) = Some v ->
      sys_step exact_route "<!DOCTYPE html>" ev st = Some st' ->
      stored_value (fst st') = Some v \/ stored_value (fst st') = Some (v + 1)).
Proof.
  cbv zeta. split; [reflexivity|].
  apply (one_row_and_monotone exact_route "<!DOCTYPE html>"
           [Launch no_faults;
            Serve post_request None None;
            Halt; Launch no_faults]).
  reflexivity.
Defined.

Lemma failed_startup_never_serves_witness :
  let fs := {| on_open := None; on_create := None; on_count := None;
               on_insert := Some "SQLITE_FULL: database or disk is full" |} in
  init_call_fails fs None /\
  exists s',
    main fs None = (s', Exited 1) /\
    snd (main fs None) <> Listening /\
    (forall req fu fs',
        sys_step exact_route "<!DOCTYPE html>" (Serve req fu fs') (main fs None)
        = None).
Proof.
  cbv zeta.
  assert (init_call_fails
            {| on_open := None; on_create := None; on_count := None;
               on_insert := Some "SQLITE_FULL: database or disk is full" |}
            None) as Hfail.
  { right; right; right. split; [reflexivity|]. eexists. reflexivity. }
  split; [exact Hfail|].
  exact (failed_startup_never_serves exact_route "<!DOCTYPE html>" _ None Hfail).
Defined.

(** ** Requests in flight together *)

Lemma past_update_arrivals (K : nat) : past_update (arrivals K) = O.
Proof. induction K as [|K IH]; [reflexivity | exact IH]. Qed.

Lemma past_update_responded (pool : Pool) :
  Forall (fun rq => responded rq = true) pool ->
  past_update pool = length pool.
Proof.
  induction 1 as [|rq pool Hrq _ IH]; [reflexivity|].
  destruct rq; simpl in *; try discriminate. by rewrite IH.
Qed.

(** Replacing the request in slot [i] changes the count by what that
    request contributes. *)
Lemma past_update_insert (pool : Pool) : forall (i : nat) (rq rq' : PostReq),
  pool !! i = Some rq ->
  (past_update (<[i := rq']> pool) + past_update [rq]
   = past_update pool + past_update [rq'])%nat.
Proof.
  induction pool as [|hd pool IH]; intros i rq rq' Hi; [discriminate|].
  destruct i as [|i].
  - injection Hi as ->. destruct rq, rq'; simpl; lia.
  - specialize (IH i rq rq' Hi).
    change (<[S i := rq']> (hd :: pool)) with (hd :: <[i := rq']> pool).
    destruct hd; cbn [past_update];
      [exact IH | cbn [Nat.add]; f_equal; exact IH ..].
Qed.

Lemma pool_step_length (i : nat) (f : fault) (ps : Pool * Store) :
  length (fst (pool_step i f ps)) = length (fst ps).
Proof.
  unfold pool_step. destruct (fst ps !! i) as [rq|]; [|reflexivity].
  destruct (post_step f rq (snd ps)) as [s' rq']. simpl. apply length_insert.
Qed.

Lemma run_schedule_length (sched : list (nat * fault)) :
  forall ps, length (fst (run_schedule sched ps)) = length (fst ps).
Proof.
  induction sched as [|[i f] sched IH]; intros ps; [reflexivity|].
  simpl. by rewrite IH, pool_step_length.
Qed.

Lemma past_update_le_length (pool : Pool) :
  (past_update pool <= length pool)%nat.
Proof.
  induction pool as [|[res|res|res] pool IH]; simpl; lia.
Qed.

(** Without faults and below the 64-bit boundary, the stored value is the
    starting value plus the number of requests whose UPDATE has run: no
    turn of any request undoes or overwrites the UPDATE of another. *)
Lemma pool_step_counts (V : Z) (i : nat) (ps : Pool * Store) :
  int64_min <= V ->
  V + Z.of_nat (length (fst ps)) <= int64_max + 1 ->
  stored_value (snd ps) = Some (V + Z.of_nat (past_update (fst ps))) ->
  stored_value (snd (pool_step i None ps))
  = Some (V + Z.of_nat (past_update (fst (pool_step i None ps)))).
Proof.
  destruct ps as [pool s]. unfold pool_step. cbn [fst snd]. intros Hlo Hhi Hs.
  destruct (pool !! i) as [rq|] eqn:Hi; [|exact Hs].
  pose proof (fun rq' => past_update_insert pool i rq rq' Hi) as Hcount.
  destruct rq as [res | res | res]; cbn [post_step].
  - destruct (update_adds_one s _ Hs) as (s' & -> & Hs').
    cbn [post_on_update fst snd]. rewrite Hs'. f_equal.
    specialize (Hcount (AwaitSelect res)). cbn [past_update] in Hcount.
    pose proof (past_update_le_length (<[i := AwaitSelect res]> pool)) as Hle.
    rewrite length_insert in Hle.
    rewrite sql_add1_integer by lia. lia.
  - rewrite (select_value_ok s _ Hs). cbn [fst snd]. rewrite Hs. f_equal.
    specialize (Hcount (Responded
      (post_on_select (DbOk (Some (V + Z.of_nat (past_update pool)))) res))).
    cbn [past_update] in Hcount. lia.
  - cbn [fst snd]. rewrite Hs. f_equal.
    specialize (Hcount (Responded res)). cbn [past_update] in Hcount. lia.
Qed.

Lemma run_schedule_counts (V : Z) (sched : list (nat * fault)) :
  forall ps,
    int64_min <= V ->
    V + Z.of_nat (length (fst ps)) <= int64_max + 1 ->
    fault_free sched ->
    stored_value (snd ps) = Some (V + Z.of_nat (past_update (fst ps))) ->
    stored_value (snd (run_schedule sched ps))
    = Some (V + Z.of_nat (past_update (fst (run_schedule sched ps)))).
Proof.
  induction sched as [|[i f] sched IH]; intros ps Hlo Hhi Hfree Hs;
    [exact Hs|].
  inversion Hfree as [|turn rest Hf Hrest]; subst. simpl in Hf. subst f.
  simpl. apply IH; [exact Hlo | by rewrite pool_step_length | exact Hrest|].
  by apply pool_step_counts.
Qed.

Lemma run_schedule_app (a b : list (nat * fault)) :
  forall ps, run_schedule (a ++ b) ps = run_schedule b (run_schedule a ps).
Proof.
  induction a as [|[i f] a IH]; intros ps; [reflexivity|]. simpl. apply IH.
Qed.

(** A round over the requests behind [l1] takes each of them one stage
    further, as long as the store stays within [I]. *)
Lemma round_advances (P Q : PostReq -> Prop) (I : Store -> Prop) :
  (forall rq s, P rq -> I s ->
     Q (snd (post_step None rq s)) /\ I (fst (post_step None rq s))) ->
  forall (l2 l1 : Pool) (s : Store),
    I s -> Forall P l2 ->
    exists l2' s',
      run_schedule (round (length l1) (length l2)) (l1 ++ l2, s)
      = (l1 ++ l2', s') /\
      Forall Q l2' /\ I s' /\ length l2' = length l2.
Proof.
  intros Hstep. induction l2 as [|rq l2 IH]; intros l1 s Hs HP.
  - exists [], s. by repeat split.
  - inversion HP as [|? ? Hrq Hrest]; subst.
    destruct (Hstep rq s Hrq Hs) as [HQ HI].
    unfold round. cbn [length List.seq map run_schedule].
    unfold pool_step at 1. cbn [fst snd].
    rewrite (list_lookup_middle l1 l2 rq (length l1) eq_refl).
    destruct (post_step None rq s) as [s1 rq1]. cbn [fst snd] in HQ, HI.
    rewrite insert_app_r_alt by lia. rewrite Nat.sub_diag.
    change (<[O := rq1]> (rq :: l2)) with (rq1 :: l2).
    rewrite (cons_middle rq1 l1 l2), app_assoc.
    replace (S (length l1)) with (length (l1 ++ [rq1]))
      by (rewrite length_app; simpl; lia).
    destruct (IH (l1 ++ [rq1]) s1 HI Hrest) as (l2' & s' & Hrun & HQ' & HI' & Hlen).
    exists (rq1 :: l2'), s'. unfold round in Hrun. rewrite Hrun.
    rewrite <- app_assoc. repeat split; [by constructor | done | simpl; lia].
Qed.

(** Every pool of arrivals can be served to the end: a round of UPDATEs
    followed by a round of SELECTs answers all [K] requests. *)
Lemma arrivals_can_all_be_answered (K : nat) (s : Store) :
  is_Some (stored_value s) ->
  Forall (fun rq => responded rq = true)
         (fst (run_schedule (round 0 K ++ round 0 K) (arrivals K, s))).
Proof.
  intros Hs. rewrite run_schedule_app.
  destruct (round_advances
              (fun rq => exists res, rq = AwaitUpdate res)
              (fun rq => exists res, rq = AwaitSelect res)
              (fun s => is_Some (stored_value s))) with
    (l2 := arrivals K) (l1 := @nil PostReq) (s := s)
    as (l2' & s' & Hrun & Hsel & Hs' & Hlen).
  { intros rq s0 [res ->] [v Hv]. cbn [post_step].
    destruct (update_adds_one s0 v Hv) as (s1 & -> & Hv1). simpl. eauto. }
  { exact Hs. }
  { unfold arrivals. apply Forall_replicate. eauto. }
  unfold arrivals in Hrun, Hlen. rewrite length_replicate in Hrun, Hlen.
  cbn [length app] in Hrun. unfold arrivals. rewrite Hrun.
  destruct (round_advances
              (fun rq => exists res, rq = AwaitSelect res)
              (fun rq => responded rq = true)
              (fun s => is_Some (stored_value s))) with
    (l2 := l2') (l1 := @nil PostReq) (s := s')
    as (l3 & s3 & Hrun' & Hdone & _ & _).
  { intros rq s0 [res ->] [v Hv]. cbn [post_step].
    rewrite (select_value_ok s0 v Hv). simpl. eauto. }
  { exact Hs'. }
  { exact Hsel. }
  rewrite Hlen in Hrun'. cbn [length app] in Hrun'. by rewrite Hrun'.
Qed.

(** The handler run on its own is two turns of one request. *)
Lemma increment_is_two_turns (fu fs : fault) (res : Response) (s : Store) :
  run_schedule [(O, fu); (O, fs)] ([AwaitUpdate res], s)
  = ([Responded (snd (api_counter_increment fu fs res s))],
     fst (api_counter_increment fu fs res s)).
Proof.
  unfold api_counter_increment. cbn [run_schedule].
  unfold pool_step at 2. cbn [fst snd lookup list_lookup post_step].
  destruct (sql_update_increment fu s) as [s1 [[]|m]];
    cbn [post_on_update]; unfold pool_step; cbn.
  - by destruct (sql_select_value fs s1).
  - reflexivity.
Qed.

(** C9, amended.  [K] increment requests are in flight together from a
    stored INTEGER [V] with [V + K] at most 2^63, their storage calls
    interleaved in any order, none failing: once all have been answered the
    stored value is [V + K]. *)
Theorem concurrent_increments_all_counted (K : nat) (V : Z) (s : Store)
  (sched : list (nat * fault)) :
  stored_value s = Some V ->
  int64_min <= V ->
  V + Z.of_nat K <= int64_max + 1 ->
  fault_free sched ->
  Forall (fun rq => responded rq = true)
         (fst (run_schedule sched (arrivals K, s))) ->
  stored_value (snd (run_schedule sched (arrivals K, s)))
  = Some (V + Z.of_nat K).
Proof.
  intros HV Hlo Hhi Hfree Hdone.
  rewrite (run_schedule_counts V sched (arrivals K, s) Hlo); [| |exact Hfree|].
  - rewrite (past_update_responded _ Hdone), run_schedule_length.
    cbn [fst]. unfold arrivals. by rewrite length_replicate.
  - cbn [fst]. unfold arrivals. by rewrite length_replicate.
  - cbn [fst snd]. rewrite past_update_arrivals. by rewrite Z.add_0_r.
Qed.

Lemma concurrent_increments_witness :
  let s := Some {| rows := {[1 := 5]}; seq := 1 |} in
  let sched := [(0%nat, None); (1%nat, None); (0%nat, None); (1%nat, None)] in
  stored_value s = Some 5 /\
  int64_min <= 5 /\
  5 + Z.of_nat 2 <= int64_max + 1 /\
  fault_free sched /\
  Forall (fun rq => responded rq = true)
         (fst (run_schedule sched (arrivals 2, s))) /\
  stored_value (snd (run_schedule sched (arrivals 2, s)))
  = Some (5 + Z.of_nat 2).
Proof.
  cbv zeta.
  assert (int64_min <= 5) as Hlo by (vm_compute; discriminate).
  assert (5 + Z.of_nat 2 <= int64_max + 1) as Hhi by (vm_compute; discriminate).
  assert (fault_free [(0%nat, None); (1%nat, None); (0%nat, None); (1%nat, None)])
    as Hfree by (repeat constructor).
  assert (Forall (fun rq => responded rq = true)
            (fst (run_schedule
                    [(0%nat, None); (1%nat, None); (0%nat, None); (1%nat, None)]
                    (arrivals 2, Some {| rows := {[1 := 5]}; seq := 1 |}))))
    as Hdone by (vm_compute; repeat constructor).
  split; [reflexivity|]. split; [exact Hlo|]. split; [exact Hhi|].
  split; [exact Hfree|]. split; [exact Hdone|].
  exact (concurrent_increments_all_counted 2 5
           (Some {| rows := {[1 := 5]}; seq := 1 |}) _ eq_refl Hlo Hhi Hfree
           Hdone).
Defined.

(** C9 as it was stated fails at [V] = 2^63 - 1, [K] = 2: both requests
    are answered without storage error and the row ends as the REAL 2^63,
    which is [V + 1]. *)
Lemma concurrent_increments_saturate :
  let V := 9223372036854775807 in
  let s := Some {| rows := {[1 := V]}; seq := 1 |} in
  let sched := [(0%nat, None); (1%nat, None); (0%nat, None); (1%nat, None)] in
  stored_value s = Some V /\
  fault_free sched /\
  Forall (fun rq => responded rq = true)
         (fst (run_schedule sched (arrivals 2, s))) /\
  stored_value (snd (run_schedule sched (arrivals 2, s))) = Some (V + 1) /\
  stored_value (snd (run_schedule sched (arrivals 2, s)))
  <> Some (V + Z.of_nat 2).
Proof.
  cbv zeta. split; [reflexivity|]. split; [repeat constructor|].
  split; [vm_compute; repeat constructor|]. split; [vm_compute; reflexivity|].
  vm_compute. intros H. discriminate H.
Qed.

(** * Further properties of the handlers *)

(** ** The read endpoint *)

Lemma get_failure (f : fault) (s : Store) :
  is_Some f \/ s = None ->
  api_counter_get f fresh_res s = (s, error_500 msg_retrieve).
Proof.
  intros [[m ->] | ->].
  - reflexivity.
  - by destruct f.
Qed.

(** X1. When the SELECT of GET /api/counter fails, by a storage fault or
    because the table does not exist, the answer is 500 with the fixed body
    [{"error": "Failed to retrieve counter value."}]: the text of the
    storage error is not passed on, and the store is as it was. *)
Theorem get_failure_answers_fixed_message (f : fault) (s : Store) :
  is_Some f \/ s = None ->
  api_counter_get f fresh_res s = (s, error_500 msg_retrieve).
Proof.
  unfold api_counter_get. intros [[m ->] | ->].
  - destruct s; reflexivity.
  - destruct f; reflexivity.
Qed.

Lemma get_failure_witness :
  (is_Some (Some "SQLITE_BUSY: database is locked")
   \/ Some {| rows := {[1 := 7]}; seq := 1 |} = None) /\
  api_counter_get (Some "SQLITE_BUSY: database is locked") fresh_res
    (Some {| rows := {[1 := 7]}; seq := 1 |})
  = (Some {| rows := {[1 := 7]}; seq := 1 |}, error_500 msg_retrieve).
Proof.
  assert (is_Some (Some "SQLITE_BUSY: database is locked")
          \/ Some {| rows := {[1 := 7]}; seq := 1 |} = None) as H.
  { left. eexists. reflexivity. }
  split; [exact H|].
  exact (get_failure_answers_fixed_message _ _ H).
Defined.

(** ** The increment endpoint *)

(** X2. A 200 answer of POST /api/counter/increment is never given without
    the increment.  For a request served with no other in flight, whatever
    the store and the faults: if the status is 200 then row 1 existed with
    some value [V], it now holds [value + 1] as SQLite computes it ([V + 1]
    for every INTEGER [V]), and the body carries the double nearest to the
    new value. *)
Theorem increment_200_means_incremented (fu fs : fault) (s s' : Store)
  (res' : Response) :
  api_counter_increment fu fs fresh_res s = (s', res') ->
  statusCode res' = 200 ->
  exists V, stored_value s = Some V /\
            stored_value s' = Some (sql_add1 V) /\
            res' = ok_value (js_number (sql_add1 V)) /\
            (int64_min <= V <= int64_max -> sql_add1 V = V + 1).
Proof.
  unfold api_counter_increment.
  destruct fu as [m|]; [simpl; intros [= <- <-]; discriminate|].
  destruct s as [t|]; [|simpl; intros [= <- <-]; discriminate].
  cbn [sql_update_increment].
  destruct fs as [m|]; [simpl; intros [= <- <-]; discriminate|].
  cbn [sql_select_value rows]. rewrite lookup_alter_eq.
  destruct (rows t !! 1) as [V|] eqn:HV; simpl; intros [= <- <-];
    [|discriminate].
  intros _. exists V. cbn [stored_value rows].
  rewrite lookup_alter_eq, HV. repeat split. apply sql_add1_integer.
Qed.

Lemma increment_200_witness :
  let s := Some {| rows := {[1 := 9]}; seq := 1 |} in
  let s' := Some {| rows := {[1 := 10]}; seq := 1 |} in
  api_counter_increment None None fresh_res s = (s', ok_value 10) /\
  statusCode (ok_value 10) = 200 /\
  exists V, stored_value s = Some V /\
            stored_value s' = Some (sql_add1 V) /\
            ok_value 10 = ok_value (js_number (sql_add1 V)) /\
            (int64_min <= V <= int64_max -> sql_add1 V = V + 1).
Proof.
  cbv zeta. split; [reflexivity|]. split; [reflexivity|].
  apply (increment_200_means_incremented None None
           (Some {| rows := {[1 := 9]}; seq := 1 |})); reflexivity.
Defined.

(** X3. POST /api/counter/increment touches nothing but the value of row 1:
    whatever the faults, the table keeps its ids, its AUTOINCREMENT mark and
    the value of every other row. *)
Theorem increment_touches_only_row_1 (fu fs : fault) (res : Response)
  (t : Table) :
  exists t',
    fst (api_counter_increment fu fs res (Some t)) = Some t' /\
    seq t' = seq t /\
    dom (rows t') = dom (rows t) /\
    (forall id, id <> 1 -> rows t' !! id = rows t !! id).
Proof.
  unfold api_counter_increment.
  destruct fu as [m|]; [exists t; by simpl|].
  cbn [sql_update_increment].
  pose proof (select_reads fs
    (Some {| rows := alter sql_add1 1 (rows t); seq := seq t |})) as Hsel.
  destruct (sql_select_value fs _) as [s2 r2]. cbn [fst] in *. subst s2.
  eexists; split; [reflexivity|]. cbn [rows seq].
  split; [reflexivity|]. split; [apply dom_alter_L|].
  intros id Hid. by apply lookup_alter_ne.
Qed.

(** X4. On a store whose row 1 holds [V], a request to the increment
    endpoint served with no other in flight has exactly three outcomes.
    Only the 500 of a failed UPDATE leaves the row as it was; the 500 of a
    failed SELECT is sent after the row has been given [value + 1], like
    the 200, whose body carries the double nearest to the new value.  For
    an INTEGER [V] the new value is [V + 1]. *)
Theorem increment_outcomes (fu fs : fault) (s : Store) (V : Z) :
  stored_value s = Some V ->
  let out := api_counter_increment fu fs fresh_res s in
  ((is_Some fu /\ out = (s, error_500 msg_increment)) \/
   (fu = None /\ is_Some fs /\ snd out = error_500 msg_retrieve_new /\
    stored_value (fst out) = Some (sql_add1 V)) \/
   (fu = None /\ fs = None /\
    snd out = ok_value (js_number (sql_add1 V)) /\
    stored_value (fst out) = Some (sql_add1 V))) /\
  (int64_min <= V <= int64_max -> sql_add1 V = V + 1).
Proof.
  intros HV. cbv zeta. split; [|apply sql_add1_integer].
  destruct fu as [m|].
  - left. split; [by eexists | reflexivity].
  - right. destruct fs as [m|].
    + left. destruct (increment_select_failure m s V HV) as (s' & -> & Hs').
      repeat split; [by eexists | exact Hs'].
    + right. destruct (increment_ok s V HV) as (s' & -> & Hs').
      by repeat split.
Qed.

Lemma increment_outcomes_witness :
  let s := Some {| rows := {[1 := 3]}; seq := 1 |} in
  stored_value s = Some 3 /\
  let out := api_counter_increment None (Some "SQLITE_IOERR") fresh_res s in
  ((is_Some (@None string) /\ out = (s, error_500 msg_increment)) \/
   (@None string = None /\ is_Some (Some "SQLITE_IOERR") /\
    snd out = error_500 msg_retrieve_new /\
    stored_value (fst out) = Some (sql_add1 3)) \/
   (@None string = None /\ Some "SQLITE_IOERR" = None /\
    snd out = ok_value (js_number (sql_add1 3)) /\
    stored_value (fst out) = Some (sql_add1 3))) /\
  (int64_min <= 3 <= int64_max -> sql_add1 3 = 3 + 1).
Proof.
  cbv zeta. split; [reflexivity|].
  apply (increment_outcomes None (Some "SQLITE_IOERR")
           (Some {| rows := {[1 := 3]}; seq := 1 |}) 3).
  reflexivity.
Defined.

(** * Further properties of initialization *)

Lemma init_populated_unchanged (fs : InitFaults) (s : Store) :
  row_count s <> O -> fst (initializeDatabase fs s) = s.
Proof.
  destruct s as [t|]; [|done]. cbn [row_count]. intros Hn.
  assert (Z.eqb (Z.of_nat (size (rows t))) 0 = false) as Hz
    by (apply Z.eqb_neq; lia).
  unfold initializeDatabase.
  destruct fs as [[?|] [?|] [?|] fi]; simpl; try reflexivity.
  by rewrite Hz.
Qed.

Lemma init_resolved_populated (fs : InitFaults) (s s' : Store) :
  initializeDatabase fs s = (s', Resolved) -> row_count s' <> O.
Proof.
  assert (forall (fi : fault) (t : Table),
    (if Z.eqb (Z.of_nat (size (rows t))) 0
     then let '(s3, r3) := sql_insert_value fi 0 (Some t) in
          match r3 with
          | DbErr m => (s3, Rejected m)
          | DbOk _ => (s3, Resolved)
          end
     else (Some t, Resolved)) = (s', Resolved) -> row_count s' <> O) as Hcase.
  { intros fi t. destruct (Z.eqb_spec (Z.of_nat (size (rows t))) 0) as [Hz|Hz].
    - destruct fi as [m|]; simpl; [discriminate|].
      destruct (Z.ltb (Z.max (seq t) (max_rowid (rows t))) int64_max);
        [|discriminate].
      intros [= <-]. cbn [row_count rows].
      apply (map_size_ne_0_lookup_2 _ (Z.max (seq t) (max_rowid (rows t)) + 1)).
      rewrite lookup_insert_eq. by eexists.
    - intros [= <-]. cbn [row_count]. lia. }
  unfold initializeDatabase.
  destruct s as [t|], fs as [[?|] [?|] [?|] fi]; simpl; try discriminate;
    [apply Hcase | apply (Hcase fi empty_table)].
Qed.

(** X5. A store that already has a row is not written by initialization,
    whichever of its storage calls fail; and when the open, the CREATE TABLE
    and the count succeed, the promise resolves (no INSERT is attempted). *)
Theorem initialization_keeps_populated_store (fs : InitFaults) (s : Store) :
  row_count s <> O ->
  fst (initializeDatabase fs s) = s /\
  (on_open fs = None -> on_create fs = None -> on_count fs = None ->
   snd (initializeDatabase fs s) = Resolved).
Proof.
  intros Hn. split; [by apply init_populated_unchanged|].
  destruct s as [t|]; [|done]. cbn [row_count] in Hn.
  assert (Z.eqb (Z.of_nat (size (rows t))) 0 = false) as Hz
    by (apply Z.eqb_neq; lia).
  destruct fs as [fo fc fn fi]. cbn [on_open on_create on_count].
  intros -> -> ->. unfold initializeDatabase. simpl. by rewrite Hz.
Qed.

Lemma initialization_keeps_populated_store_witness :
  let s := Some {| rows := {[1 := 12]}; seq := 1 |} in
  let fs := {| on_open := None; on_create := None; on_count := None;
               on_insert := Some "SQLITE_FULL" |} in
  row_count s <> O /\
  fst (initializeDatabase fs s) = s /\
  (on_open fs = None -> on_create fs = None -> on_count fs = None ->
   snd (initializeDatabase fs s) = Resolved).
Proof.
  cbv zeta.
  assert (row_count (Some {| rows := {[1 := 12]}; seq := 1 |}) <> O) as Hn
    by (vm_compute; discriminate).
  split; [exact Hn|].
  exact (initialization_keeps_populated_store _ _ Hn).
Defined.

(** X6. Initialization is idempotent: once it has resolved, the table has
    at least one row, and any later initialization (a restart), with any
    faults, leaves the store exactly as it is. *)
Theorem initialization_idempotent (fs fs' : InitFaults) (s s' : Store) :
  initializeDatabase fs s = (s', Resolved) ->
  (1 <= row_count s')%nat /\ fst (initializeDatabase fs' s') = s'.
Proof.
  intros Hn%init_resolved_populated. split; [lia|].
  by apply init_populated_unchanged.
Qed.

Lemma initialization_idempotent_witness :
  let s1 := Some {| rows := {[1 := 0]}; seq := 1 |} in
  initializeDatabase no_faults None = (s1, Resolved) /\
  (1 <= row_count s1)%nat /\
  fst (initializeDatabase no_faults s1) = s1.
Proof.
  cbv zeta. split; [reflexivity|].
  apply (initialization_idempotent no_faults no_faults None). reflexivity.
Defined.

(** X7. When the table has been emptied after ids were handed out (its
    AUTOINCREMENT mark [q] is at least 1), a fault-free initialization does
    not bring row 1 back.  Below the largest 64-bit id it resolves and
    inserts the initial row under the id [q + 1], so the row that both
    endpoints address is still missing; at the largest id the INSERT fails
    with SQLITE_FULL, the store is left as it was and the process exits
    with code 1. *)
Theorem emptied_table_gets_fresh_id (q : Z) :
  1 <= q ->
  (q < int64_max ->
   initializeDatabase no_faults (Some {| rows := ∅; seq := q |})
   = (Some {| rows := {[q + 1 := 0]}; seq := q + 1 |}, Resolved) /\
   stored_value (Some {| rows := {[q + 1 := 0]}; seq := q + 1 |}) = None) /\
  (int64_max <= q ->
   initializeDatabase no_faults (Some {| rows := ∅; seq := q |})
   = (Some {| rows := ∅; seq := q |}, Rejected database_full) /\
   main no_faults (Some {| rows := ∅; seq := q |})
   = (Some {| rows := ∅; seq := q |}, Exited 1)).
Proof.
  intros Hq.
  assert (Z.max q (max_rowid ∅) = q) as Htop
    by (rewrite max_rowid_empty; lia).
  split; intros Hmax.
  - split; [|simpl; apply lookup_singleton_ne; lia].
    unfold initializeDatabase. simpl. rewrite map_size_empty. simpl.
    rewrite Htop. destruct (Z.ltb_spec q int64_max); [|lia].
    by rewrite insert_empty.
  - assert (initializeDatabase no_faults (Some {| rows := ∅; seq := q |})
            = (Some {| rows := ∅; seq := q |}, Rejected database_full)) as Hinit.
    { unfold initializeDatabase. simpl. rewrite map_size_empty. simpl.
      rewrite Htop. by destruct (Z.ltb_spec q int64_max); [lia|]. }
    split; [exact Hinit|]. unfold main. by rewrite Hinit.
Qed.

Lemma emptied_table_witness :
  1 <= 4 /\
  (4 < int64_max ->
   initializeDatabase no_faults (Some {| rows := ∅; seq := 4 |})
   = (Some {| rows := {[4 + 1 := 0]}; seq := 4 + 1 |}, Resolved) /\
   stored_value (Some {| rows := {[4 + 1 := 0]}; seq := 4 + 1 |}) = None) /\
  (int64_max <= 4 ->
   initializeDatabase no_faults (Some {| rows := ∅; seq := 4 |})
   = (Some {| rows := ∅; seq := 4 |}, Rejected database_full) /\
   main no_faults (Some {| rows := ∅; seq := 4 |})
   = (Some {| rows := ∅; seq := 4 |}, Exited 1)).
Proof.
  split; [lia|]. apply (emptied_table_gets_fresh_id 4). lia.
Defined.

(** * Further properties of the application and of the system *)

Section ApplicationFacts.

Variable route_matches : string -> string -> Request -> bool.
Variable frontend_html : string.

Local Abbreviation handle := (app_handle route_matches frontend_html).
Local Abbreviation step := (sys_step route_matches frontend_html).
Local Abbreviation trace := (run route_matches frontend_html).

(** X8. The store is written by one route only: a request after which the
    store differs was not taken by GET /api/counter, was taken by
    POST /api/counter/increment, and its UPDATE met no fault; and the body
    parser had let it through. *)
Theorem only_increment_route_writes (fu fs : fault) (req : Request)
  (res : Response) (s : Store) :
  fst (handle fu fs req res s) <> s ->
  route_matches "GET" "/api/counter" req = false /\
  route_matches "POST" "/api/counter/increment" req = true /\
  fu = None /\
  body req = BodyPassed.
Proof.
  unfold app_handle.
  destruct (body req) as [|status page]; [|intros H; by destruct H].
  destruct (route_matches "GET" "/api/counter" req).
  { intros H. destruct H. apply get_reads_only. }
  destruct (route_matches "POST" "/api/counter/increment" req).
  { destruct fu as [m|]; [intros H; by destruct H | done]. }
  destruct (route_matches "GET" "/" req); intros H; by destruct H.
Qed.

(** X9. Whatever the request, the store and the faults, the application
    answers with one of five things: the error page of the body parser,
    with the status the parser gave (400, 413, ...); 200 with a body
    [{"value": v}]; 500 with a body [{"error": m}] where [m] is one of the
    four fixed messages (never the text of the storage error); the front
    page, 200 and text/html; or the 404 text. *)
Theorem responses_are_closed (fu fs : fault) (req : Request) (s : Store) :
  let r := snd (handle fu fs req fresh_res s) in
  (exists status page,
      body req = BodyRefused status page /\
      r = {| statusCode := status;
             contentType := Some "text/html; charset=utf-8";
             sent := Some (SentText page) |}) \/
  (exists v, r = ok_value v) \/
  (exists m, In m api_error_messages /\ r = error_500 m) \/
  r = {| statusCode := 200; contentType := Some "text/html";
         sent := Some (SentText frontend_html) |} \/
  r = {| statusCode := 404; contentType := None;
         sent := Some (SentText "404: Not Found") |}.
Proof.
  cbv zeta. unfold app_handle.
  destruct (body req) as [|status page]; [right | left; eauto].
  destruct (route_matches "GET" "/api/counter" req).
  { unfold api_counter_get.
    destruct fu as [m|], s as [t|]; simpl;
      try (right; left; exists msg_retrieve; split; [simpl; tauto | reflexivity]).
    destruct (rows t !! 1) as [v|]; left; eexists; reflexivity. }
  destruct (route_matches "POST" "/api/counter/increment" req).
  { unfold api_counter_increment.
    destruct fu as [m|], s as [t|]; simpl;
      try (right; left; exists msg_increment; split; [simpl; tauto | reflexivity]).
    destruct fs as [m|]; simpl.
    - right; left; exists msg_retrieve_new; split; [simpl; tauto | reflexivity].
    - destruct (alter _ 1 (rows t) !! 1) as [v|].
      + left; eexists; reflexivity.
      + right; left; exists msg_disappeared; split; [simpl; tauto | reflexivity]. }
  destruct (route_matches "GET" "/" req); simpl; auto.
Qed.

Lemma step_value_exact (ev : Event) (st st' : System) (v : Z) :
  stored_value (fst st) = Some v ->
  step ev st = Some st' ->
  stored_value (fst st') = Some v \/
  ((exists req fu fs, ev = Serve req fu fs) /\
   stored_value (fst st') = Some (v + 1)).
Proof.
  destruct st as [s p]. unfold sys_step. cbn [fst snd]. intros Hv.
  destruct ev as [fs | req fu fs |], p; intros [= <-]; cbn [fst snd]; auto.
  - left. by rewrite main_store, (init_keeps_row _ _ _ Hv).
  - left. by rewrite main_store, (init_keeps_row _ _ _ Hv).
  - destruct (handle_store route_matches frontend_html fu fs req fresh_res s)
      as [-> | ->]; [by left|].
    destruct fu as [m|]; [by left|].
    destruct (update_adds_one s v Hv) as (s' & -> & Hv'). cbn [fst].
    rewrite Hv'. destruct (sql_add1_cases v) as [-> | ->]; [by left|].
    right. eauto.
Qed.

(** X10. Over any sequence of events (requests with any faults, stops,
    restarts) a stored value [v] is never lost and never decreases: it ends
    as [v + k] where [k] is at most the number of requests served. *)
Theorem value_grows_by_at_most_served (evs : list Event) :
  forall (st st' : System) (v : Z),
    stored_value (fst st) = Some v ->
    trace evs st = Some st' ->
    exists k : nat,
      (k <= served evs)%nat /\
      stored_value (fst st') = Some (v + Z.of_nat k).
Proof.
  induction evs as [|ev evs IH]; intros st st' v Hv; simpl.
  - intros [= <-]. exists O. split; [lia|]. by rewrite Z.add_0_r.
  - destruct (step ev st) as [st1|] eqn:Hstep; [|discriminate].
    intros Hrun.
    destruct (step_value_exact ev st st1 v Hv Hstep)
      as [Hv1 | [(req & fu & fs & ->) Hv1]].
    + destruct (IH st1 st' v Hv1 Hrun) as (k & Hk & Hend).
      exists k. split; [destruct ev; simpl; lia | exact Hend].
    + destruct (IH st1 st' (v + 1) Hv1 Hrun) as (k & Hk & Hend).
      exists (S k). split; [simpl; lia|]. rewrite Hend. f_equal. lia.
Qed.

Lemma step_frozen (t : Table) (ev : Event) (p : Process) (st' : System) :
  rows t !! 1 = None -> rows t <> ∅ ->
  step ev (Some t, p) = Some st' -> fst st' = Some t.
Proof.
  intros Hrow Hne. unfold sys_step. cbn [fst snd].
  assert (row_count (Some t) <> O) as Hcount
    by (by apply map_size_non_empty_iff).
  destruct ev as [fs | req fu fs |], p; intros [= <-]; cbn [fst snd]; auto.
  - by rewrite main_store, init_populated_unchanged.
  - by rewrite main_store, init_populated_unchanged.
  - destruct (handle_store route_matches frontend_html fu fs req fresh_res
                (Some t)) as [-> | ->]; [done|].
    destruct fu as [m|]; [done|]. by rewrite update_without_row.
Qed.

(** X11. A table that has rows but none with id 1 is never repaired: no
    launch, request or stop, with or without faults, changes the store, so
    row 1 stays missing for good. *)
Theorem store_without_row_1_is_frozen (t : Table) (evs : list Event) :
  rows t !! 1 = None -> rows t <> ∅ ->
  forall (p : Process) (st' : System),
    trace evs (Some t, p) = Some st' ->
    fst st' = Some t /\ stored_value (fst st') = None.
Proof.
  intros Hrow Hne. induction evs as [|ev evs IH]; intros p st'; simpl.
  - intros [= <-]. by split.
  - destruct (step ev (Some t, p)) as [[s1 p1]|] eqn:Hstep; [|discriminate].
    pose proof (step_frozen t ev p (s1, p1) Hrow Hne Hstep) as Hs1.
    cbn [fst] in Hs1. subst s1. apply IH.
Qed.

End ApplicationFacts.

Lemma only_increment_route_writes_witness :
  let req := post_request in
  let s := Some {| rows := {[1 := 2]}; seq := 1 |} in
  fst (app_handle exact_route "<!DOCTYPE html>" None None req fresh_res s) <> s /\
  exact_route "GET" "/api/counter" req = false /\
  exact_route "POST" "/api/counter/increment" req = true /\
  @None string = None /\
  body req = BodyPassed.
Proof.
  cbv zeta.
  assert (fst (app_handle exact_route "<!DOCTYPE html>" None None
                 post_request
                 fresh_res (Some {| rows := {[1 := 2]}; seq := 1 |}))
          <> Some {| rows := {[1 := 2]}; seq := 1 |}) as Hne.
  { vm_compute. intros H. discriminate H. }
  split; [exact Hne|].
  exact (only_increment_route_writes exact_route "<!DOCTYPE html>" _ _ _ _ _ Hne).
Defined.

Lemma value_grows_witness :
  let increment := post_request in
  let evs := [Serve increment None None; Serve increment (Some "SQLITE_BUSY") None;
              Halt; Launch no_faults; Serve increment None None] in
  let st := (Some {| rows := {[1 := 10]}; seq := 1 |}, Listening) in
  let st' := (Some {| rows := {[1 := 12]}; seq := 1 |}, Listening) in
  stored_value (fst st) = Some 10 /\
  run exact_route "<!DOCTYPE html>" evs st = Some st' /\
  exists k : nat,
    (k <= served evs)%nat /\ stored_value (fst st') = Some (10 + Z.of_nat k).
Proof.
  cbv zeta. split; [reflexivity|]. split; [reflexivity|].
  apply (value_grows_by_at_most_served exact_route "<!DOCTYPE html>" _
           (Some {| rows := {[1 := 10]}; seq := 1 |}, Listening));
    reflexivity.
Defined.

Lemma store_without_row_1_witness :
  let t := {| rows := {[2 := 9]}; seq := 2 |} in
  let increment := post_request in
  let evs := [Launch no_faults; Serve increment None None] in
  rows t !! 1 = None /\ rows t <> ∅ /\
  run exact_route "<!DOCTYPE html>" evs (Some t, NotStarted)
  = Some (Some t, Listening) /\
  fst (Some t, Listening) = Some t /\
  stored_value (fst (Some t, Listening)) = None.
Proof.
  cbv zeta.
  assert (rows {| rows := {[2 := 9]}; seq := 2 |} <> ∅) as Hne.
  { cbn [rows]. apply insert_non_empty. }
  assert (rows {| rows := {[2 := 9]}; seq := 2 |} !! 1 = None) as Hrow
    by reflexivity.
  split; [exact Hrow|]. split; [exact Hne|]. split; [reflexivity|].
  apply (store_without_row_1_is_frozen exact_route "<!DOCTYPE html>"
           {| rows := {[2 := 9]}; seq := 2 |}
           [Launch no_faults;
            Serve post_request None None]
           Hrow Hne NotStarted).
  reflexivity.
Defined.

(** * Further properties of requests in flight together *)

Lemma applied_updates_insert (pool : Pool) :
  forall (i : nat) (rq rq' : PostReq),
    pool !! i = Some rq ->
    (applied_updates (<[i := rq']> pool) + applied_updates [rq]
     = applied_updates pool + applied_updates [rq'])%nat.
Proof.
  induction pool as [|hd pool IH]; intros i rq rq' Hi; [discriminate|].
  destruct i as [|i].
  - injection Hi as ->.
    change (<[O := rq']> (rq :: pool)) with (rq' :: pool).
    cbn [applied_updates].
    destruct (update_applied rq), (update_applied rq'); lia.
  - specialize (IH i rq rq' Hi).
    change (<[S i := rq']> (hd :: pool)) with (hd :: <[i := rq']> pool).
    cbn [applied_updates] in *.
    destruct (update_applied hd), (update_applied rq), (update_applied rq');
      lia.
Qed.

Lemma applied_updates_arrivals (K : nat) : applied_updates (arrivals K) = O.
Proof. induction K as [|K IH]; [reflexivity | exact IH]. Qed.

Lemma applied_updates_le_length (pool : Pool) :
  (applied_updates pool <= length pool)%nat.
Proof.
  induction pool as [|rq pool IH]; [reflexivity|].
  cbn [applied_updates length]. destruct (update_applied rq); lia.
Qed.

Lemma pool_step_applied (V : Z) (i : nat) (f : fault) (ps : Pool * Store) :
  int64_min <= V ->
  V + Z.of_nat (length (fst ps)) <= int64_max + 1 ->
  stored_value (snd ps) = Some (V + Z.of_nat (applied_updates (fst ps))) ->
  stored_value (snd (pool_step i f ps))
  = Some (V + Z.of_nat (applied_updates (fst (pool_step i f ps)))).
Proof.
  destruct ps as [pool s]. unfold pool_step. cbn [fst snd]. intros Hlo Hhi Hs.
  destruct (pool !! i) as [rq|] eqn:Hi; [|exact Hs].
  pose proof (fun rq' => applied_updates_insert pool i rq rq' Hi) as Hcount.
  destruct rq as [res | res | res]; cbn [post_step].
  - destruct f as [m|].
    + cbn [sql_update_increment post_on_update fst snd]. rewrite Hs. f_equal.
      specialize (Hcount (Responded
        (res_json (error_body msg_increment) (res_status 500 res)))).
      cbn in Hcount. lia.
    + destruct (update_adds_one s _ Hs) as (s' & -> & Hs').
      cbn [post_on_update fst snd]. rewrite Hs'. f_equal.
      specialize (Hcount (AwaitSelect res)). cbn in Hcount.
      pose proof (applied_updates_le_length (<[i := AwaitSelect res]> pool))
        as Hle.
      rewrite length_insert in Hle.
      rewrite sql_add1_integer by lia. lia.
  - pose proof (select_reads f s) as Hsel.
    destruct (sql_select_value f s) as [s1 r]. cbn [fst snd] in *. subst s1.
    rewrite Hs. f_equal.
    specialize (Hcount (Responded (post_on_select r res))).
    assert (update_applied (Responded (post_on_select r res)) = true) as Hap.
    { destruct r as [[v|]|m]; reflexivity. }
    cbn [applied_updates] in Hcount. rewrite Hap in Hcount.
    cbn [update_applied] in Hcount. lia.
  - cbn [fst snd]. rewrite Hs. f_equal.
    specialize (Hcount (Responded res)). lia.
Qed.

(** X12. [K] requests are in flight together from a stored INTEGER [V] with
    [V + K] at most 2^63.  However their storage calls are interleaved and
    whichever of them fail, the stored value is always [V] plus the number
    of requests whose UPDATE has been applied.  An increment is missing
    only for a request still waiting for its UPDATE or answered "Failed to
    increment counter value."; a request answered anything else has been
    counted. *)
Theorem stored_value_counts_applied_updates (K : nat) (V : Z) (s : Store)
  (sched : list (nat * fault)) :
  stored_value s = Some V ->
  int64_min <= V ->
  V + Z.of_nat K <= int64_max + 1 ->
  stored_value (snd (run_schedule sched (arrivals K, s)))
  = Some (V + Z.of_nat
            (applied_updates (fst (run_schedule sched (arrivals K, s))))).
Proof.
  intros HV Hlo Hhi.
  assert (forall ps,
    V + Z.of_nat (length (fst ps)) <= int64_max + 1 ->
    stored_value (snd ps) = Some (V + Z.of_nat (applied_updates (fst ps))) ->
    stored_value (snd (run_schedule sched ps))
    = Some (V + Z.of_nat (applied_updates (fst (run_schedule sched ps)))))
    as Hrun.
  { induction sched as [|[i f] sched IH]; intros ps Hlen Hps; [exact Hps|].
    simpl. apply IH; [by rewrite pool_step_length|].
    by apply pool_step_applied. }
  apply Hrun; cbn [fst snd].
  - unfold arrivals. by rewrite length_replicate.
  - rewrite applied_updates_arrivals. by rewrite Z.add_0_r.
Qed.

Lemma stored_value_counts_witness :
  let s := Some {| rows := {[1 := 5]}; seq := 1 |} in
  let sched := [(0%nat, None); (1%nat, Some "SQLITE_BUSY"); (2%nat, None);
                (0%nat, Some "SQLITE_IOERR"); (2%nat, None)] in
  stored_value s = Some 5 /\
  int64_min <= 5 /\
  5 + Z.of_nat 3 <= int64_max + 1 /\
  applied_updates (fst (run_schedule sched (arrivals 3, s))) = 2%nat /\
  stored_value (snd (run_schedule sched (arrivals 3, s)))
  = Some (5 + Z.of_nat
            (applied_updates (fst (run_schedule sched (arrivals 3, s))))).
Proof.
  cbv zeta.
  assert (int64_min <= 5) as Hlo by (vm_compute; discriminate).
  assert (5 + Z.of_nat 3 <= int64_max + 1) as Hhi by (vm_compute; discriminate).
  split; [reflexivity|]. split; [exact Hlo|]. split; [exact Hhi|].
  split; [reflexivity|].
  apply (stored_value_counts_applied_updates 3 5
           (Some {| rows := {[1 := 5]}; seq := 1 |}));
    [reflexivity | exact Hlo | exact Hhi].
Defined.

Lemma past_update_lookup (pool : Pool) :
  forall (i : nat) (rq : PostReq),
    pool !! i = Some rq -> (past_update [rq] <= past_update pool)%nat.
Proof.
  induction pool as [|hd pool IH]; intros i rq Hi; [discriminate|].
  destruct i as [|i].
  - injection Hi as ->. destruct rq; simpl; lia.
  - specialize (IH i rq Hi). destruct hd; cbn [past_update] in *; lia.
Qed.

Lemma in_flight_ok_mono (V : Z) (n n' : nat) (rq : PostReq) :
  (n <= n')%nat -> in_flight_ok V n rq -> in_flight_ok V n' rq.
Proof.
  intros Hn. destruct rq as [res|res|res]; simpl; auto.
  intros (v & -> & Hv). exists v. split; [reflexivity | lia].
Qed.

Lemma pool_step_in_flight (V : Z) (i : nat) (ps : Pool * Store) :
  stored_value (snd ps) = Some (V + Z.of_nat (past_update (fst ps))) ->
  Forall (in_flight_ok V (past_update (fst ps))) (fst ps) ->
  Forall (in_flight_ok V (past_update (fst (pool_step i None ps))))
         (fst (pool_step i None ps)).
Proof.
  destruct ps as [pool s]. unfold pool_step. cbn [fst snd]. intros Hs Hall.
  destruct (pool !! i) as [rq|] eqn:Hi; [|exact Hall].
  pose proof (Forall_lookup_1 _ _ _ _ Hall Hi) as Hrq.
  pose proof (fun rq' => past_update_insert pool i rq rq' Hi) as Hcount.
  pose proof (past_update_lookup pool i rq Hi) as Hle.
  destruct rq as [res | res | res]; cbn [post_step]; simpl in Hrq.
  - subst res. destruct (update_adds_one s _ Hs) as (s' & -> & _).
    cbn [post_on_update fst snd].
    specialize (Hcount (AwaitSelect fresh_res)). cbn [past_update] in Hcount.
    apply Forall_insert; [|reflexivity].
    eapply Forall_impl; [exact Hall|].
    intros rq. apply in_flight_ok_mono. lia.
  - subst res. rewrite (select_value_ok s _ Hs). cbn [fst snd].
    set (v := V + Z.of_nat (past_update pool)) in *.
    specialize (Hcount (Responded (post_on_select (DbOk (Some v)) fresh_res))).
    cbn [past_update] in Hcount, Hle.
    apply Forall_insert.
    + eapply Forall_impl; [exact Hall|].
      intros rq. apply in_flight_ok_mono. lia.
    + exists v. split; [reflexivity|]. subst v. lia.
  - cbn [fst snd]. by rewrite (list_insert_id pool i (Responded res) Hi).
Qed.

(** X13. [K] requests are in flight together from a stored INTEGER [V] with
    [V + K] at most 2^63, and no storage call fails.  Whatever the
    interleaving, every request that has been answered was answered 200
    with the double nearest to some value between [V + 1] and [V + K]; when
    those values are at most 2^53 in magnitude, with that value itself. *)
Theorem concurrent_answers_in_range (K : nat) (V : Z) (s : Store)
  (sched : list (nat * fault)) (i : nat) (res : Response) :
  stored_value s = Some V ->
  int64_min <= V ->
  V + Z.of_nat K <= int64_max + 1 ->
  fault_free sched ->
  fst (run_schedule sched (arrivals K, s)) !! i = Some (Responded res) ->
  exists v,
    res = ok_value (js_number v) /\
    V + 1 <= v <= V + Z.of_nat K /\
    (- safe_max <= V + 1 -> V + Z.of_nat K <= safe_max -> js_number v = v).
Proof.
  intros HV Hlo Hhi Hfree Hi.
  assert (forall ps,
    V + Z.of_nat (length (fst ps)) <= int64_max + 1 ->
    fault_free sched ->
    stored_value (snd ps) = Some (V + Z.of_nat (past_update (fst ps))) ->
    Forall (in_flight_ok V (past_update (fst ps))) (fst ps) ->
    Forall (in_flight_ok V (past_update (fst (run_schedule sched ps))))
           (fst (run_schedule sched ps))) as Hrun.
  { clear Hfree Hi. induction sched as [|[j f] sched IH];
      intros ps Hlen Hfree Hs Hall; [exact Hall|].
    inversion Hfree as [|turn rest Hf Hrest]; subst. simpl in Hf. subst f.
    simpl. apply IH; [by rewrite pool_step_length | exact Hrest
                     | by apply pool_step_counts
                     | by apply pool_step_in_flight]. }
  specialize (Hrun (arrivals K, s)). cbn [fst snd] in Hrun.
  rewrite past_update_arrivals in Hrun.
  assert (Forall (in_flight_ok V 0) (arrivals K)) as H0
    by (apply Forall_replicate; reflexivity).
  assert (V + Z.of_nat (length (arrivals K)) <= int64_max + 1) as Hlen0
    by (unfold arrivals; by rewrite length_replicate).
  specialize (Hrun Hlen0 Hfree ltac:(by rewrite Z.add_0_r) H0).
  pose proof (Forall_lookup_1 _ _ _ _ Hrun Hi) as (v & -> & Hv).
  pose proof (past_update_le_length (fst (run_schedule sched (arrivals K, s)))) as Hlen.
  rewrite run_schedule_length in Hlen. cbn [fst] in Hlen.
  unfold arrivals in Hlen at 2. rewrite length_replicate in Hlen.
  exists v. split; [reflexivity|]. split; [lia|].
  intros Hslo Hshi. apply to_double_safe. lia.
Qed.

Lemma concurrent_answers_witness :
  let s := Some {| rows := {[1 := 5]}; seq := 1 |} in
  let sched := [(0%nat, None); (1%nat, None); (0%nat, None)] in
  stored_value s = Some 5 /\
  int64_min <= 5 /\
  5 + Z.of_nat 2 <= int64_max + 1 /\
  fault_free sched /\
  fst (run_schedule sched (arrivals 2, s)) !! 0%nat
  = Some (Responded (ok_value 7)) /\
  exists v,
    ok_value 7 = ok_value (js_number v) /\
    5 + 1 <= v <= 5 + Z.of_nat 2 /\
    (- safe_max <= 5 + 1 -> 5 + Z.of_nat 2 <= safe_max -> js_number v = v).
Proof.
  cbv zeta.
  assert (int64_min <= 5) as Hlo by (vm_compute; discriminate).
  assert (5 + Z.of_nat 2 <= int64_max + 1) as Hhi by (vm_compute; discriminate).
  assert (fault_free [(0%nat, None); (1%nat, None); (0%nat, None)]) as Hfree
    by (repeat constructor).
  split; [reflexivity|]. split; [exact Hlo|]. split; [exact Hhi|].
  split; [exact Hfree|]. split; [reflexivity|].
  apply (concurrent_answers_in_range 2 5
           (Some {| rows := {[1 := 5]}; seq := 1 |})
           [(0%nat, None); (1%nat, None); (0%nat, None)] 0%nat);
    [reflexivity | exact Hlo | exact Hhi | exact Hfree | reflexivity].
Defined.

(** X14. The value a request is answered with need not be its own
    increment.  From a stored INTEGER [V] with [V + 2] at most 2^63, when
    the UPDATEs of two requests both run before either SELECT, both are
    answered the double nearest to [V + 2] (up to 2^53 in magnitude,
    [V + 2] itself, so neither is answered [V + 1]); the stored value is
    [V + 2]. *)
Theorem interleaved_increments_answer_alike (V : Z) (s : Store) :
  stored_value s = Some V ->
  int64_min <= V ->
  V + 2 <= int64_max + 1 ->
  exists s',
    run_schedule [(0%nat, None); (1%nat, None); (0%nat, None); (1%nat, None)]
      (arrivals 2, s)
    = ([Responded (ok_value (js_number (V + 2)));
        Responded (ok_value (js_number (V + 2)))], s') /\
    stored_value s' = Some (V + 2) /\
    (- safe_max <= V + 2 <= safe_max -> js_number (V + 2) = V + 2).
Proof.
  intros HV Hlo Hhi.
  destruct (update_adds_one s V HV) as (s1 & Hu1 & HV1).
  rewrite sql_add1_integer in HV1 by lia.
  destruct (update_adds_one s1 (V + 1) HV1) as (s2 & Hu2 & HV2).
  rewrite sql_add1_integer in HV2 by lia.
  replace (V + 1 + 1) with (V + 2) in HV2 by lia.
  exists s2. split; [|split; [exact HV2 | apply to_double_safe]].
  cbn [run_schedule arrivals replicate]. unfold pool_step.
  cbn [fst snd lookup list_lookup post_step]. rewrite Hu1.
  cbn [post_on_update fst snd lookup list_lookup post_step insert list_insert].
  rewrite Hu2.
  cbn [post_on_update fst snd lookup list_lookup post_step insert list_insert].
  rewrite (select_value_ok s2 _ HV2).
  cbn [post_on_update fst snd lookup list_lookup post_step insert list_insert].
  rewrite (select_value_ok s2 _ HV2). reflexivity.
Qed.

Lemma interleaved_increments_witness :
  stored_value (Some {| rows := {[1 := 5]}; seq := 1 |}) = Some 5 /\
  int64_min <= 5 /\
  5 + 2 <= int64_max + 1 /\
  exists s',
    run_schedule [(0%nat, None); (1%nat, None); (0%nat, None); (1%nat, None)]
      (arrivals 2, Some {| rows := {[1 := 5]}; seq := 1 |})
    = ([Responded (ok_value (js_number (5 + 2)));
        Responded (ok_value (js_number (5 + 2)))], s') /\
    stored_value s' = Some (5 + 2) /\
    (- safe_max <= 5 + 2 <= safe_max -> js_number (5 + 2) = 5 + 2).
Proof.
  assert (int64_min <= 5) as Hlo by (vm_compute; discriminate).
  assert (5 + 2 <= int64_max + 1) as Hhi by (vm_compute; discriminate).
  split; [reflexivity|]. split; [exact Hlo|]. split; [exact Hhi|].
  apply (interleaved_increments_answer_alike 5
           (Some {| rows := {[1 := 5]}; seq := 1 |}));
    [reflexivity | exact Hlo | exact Hhi].
Defined.

(** * The page served by GET / *)

(** X15. Whatever [fetch] settles to (rejection, any status, JSON or not),
    when [fetchCounter] or [incrementCounter] has run to its end the button
    is enabled again and the status line is in class "success" or "error",
    never left in "loading". *)
Theorem page_never_left_loading (r : Fetched) (pg : Frontend.Page) :
  (Frontend.buttonDisabled (Frontend.fetchCounter r pg) = false /\
   (Frontend.statusClass (Frontend.fetchCounter r pg) = "success" \/
    Frontend.statusClass (Frontend.fetchCounter r pg) = "error")) /\
  (Frontend.buttonDisabled (Frontend.incrementCounter r pg) = false /\
   (Frontend.statusClass (Frontend.incrementCounter r pg) = "success" \/
    Frontend.statusClass (Frontend.incrementCounter r pg) = "error")).
Proof.
  unfold Frontend.fetchCounter, Frontend.fetchCounter_settle,
    Frontend.incrementCounter, Frontend.incrementCounter_settle.
  destruct r as [m | status [data | m]]; simpl;
    try destruct (response_ok status); simpl; auto.
Qed.

(** X16. A click that ends in an error leaves the displayed number as it
    was and arms no animation: only the status line tells of the failure. *)
Theorem failed_click_keeps_display (r : Fetched) (pg : Frontend.Page) :
  Frontend.statusClass (Frontend.incrementCounter r pg) = "error" ->
  Frontend.counterText (Frontend.incrementCounter r pg) = Frontend.counterText pg /\
  Frontend.animating (Frontend.incrementCounter r pg) = Frontend.animating pg /\
  Frontend.timers (Frontend.incrementCounter r pg) = Frontend.timers pg.
Proof.
  unfold Frontend.incrementCounter, Frontend.incrementCounter_settle.
  destruct r as [m | status [data | m]]; simpl;
    try destruct (response_ok status); simpl; auto.
  discriminate.
Qed.

Lemma failed_click_witness :
  let r := Replied 500 (JsonOk [("error", JStr "Failed to increment counter value.")]) in
  let pg := Frontend.set_counterText "41" Frontend.initial_page in
  Frontend.statusClass (Frontend.incrementCounter r pg) = "error" /\
  Frontend.counterText (Frontend.incrementCounter r pg) = Frontend.counterText pg /\
  Frontend.animating (Frontend.incrementCounter r pg) = Frontend.animating pg /\
  Frontend.timers (Frontend.incrementCounter r pg) = Frontend.timers pg.
Proof.
  cbv zeta. split; [reflexivity|].
  apply (failed_click_keeps_display
           (Replied 500 (JsonOk [("error", JStr "Failed to increment counter value.")]))).
  reflexivity.
Defined.

Lemma tab_step_inv (ev : Frontend.TabEvent) (tab : Frontend.Tab) :
  ((Frontend.pending tab = [] /\
    Frontend.buttonDisabled (Frontend.page tab) = false) \/
   (exists k, Frontend.pending tab = [k] /\
    Frontend.buttonDisabled (Frontend.page tab) = true)) /\
  (Frontend.timers (Frontend.page tab) = O ->
   Frontend.animating (Frontend.page tab) = false) ->
  let tab' := Frontend.tab_step ev tab in
  ((Frontend.pending tab' = [] /\
    Frontend.buttonDisabled (Frontend.page tab') = false) \/
   (exists k, Frontend.pending tab' = [k] /\
    Frontend.buttonDisabled (Frontend.page tab') = true)) /\
  (Frontend.timers (Frontend.page tab') = O ->
   Frontend.animating (Frontend.page tab') = false).
Proof.
  destruct tab as [pg pend]. cbn [Frontend.pending Frontend.page].
  intros [Hreq Hanim]. destruct ev as [| i r |]; cbn [Frontend.tab_step].
  - cbn [Frontend.page Frontend.pending].
    destruct Hreq as [[-> Hb] | (k & -> & Hb)]; rewrite Hb; simpl; eauto.
  - cbn [Frontend.page Frontend.pending].
    destruct Hreq as [[-> Hb] | (k & -> & Hb)].
    + simpl. auto.
    + destruct i as [|i]; [|simpl; eauto].
      cbn [lookup list_lookup]. destruct k; cbn [Frontend.page Frontend.pending].
      * split; [left; split; [reflexivity|]|].
        -- unfold Frontend.fetchCounter_settle.
           by destruct (Frontend.fetchCounter_try r pg) as [pg1 [m|]].
        -- unfold Frontend.fetchCounter_settle.
           destruct r as [m | status [data | m]]; simpl;
             try destruct (response_ok status); simpl; auto.
      * split; [left; split; [reflexivity|]|].
        -- unfold Frontend.incrementCounter_settle.
           by destruct (Frontend.incrementCounter_try r pg) as [pg1 [m|]].
        -- unfold Frontend.incrementCounter_settle.
           destruct r as [m | status [data | m]]; simpl;
             try destruct (response_ok status); simpl; auto; discriminate.
  - cbn [Frontend.page Frontend.pending].
    destruct (Frontend.timers pg) eqn:Ht; cbn [Frontend.page Frontend.pending].
    + split; [exact Hreq | by rewrite Ht].
    + split; [exact Hreq | reflexivity].
Qed.

(** X17. From [DOMContentLoaded] on, whatever the user clicks and however
    the requests settle, the page has at most one request in flight, the
    button is disabled exactly while one is, and the display is not left in
    its animated state once no timer is armed. *)
Theorem page_one_request_in_flight (evs : list Frontend.TabEvent) :
  let tab := Frontend.tab_run evs Frontend.tab_start in
  (length (Frontend.pending tab) <= 1)%nat /\
  (Frontend.buttonDisabled (Frontend.page tab) = true <->
   Frontend.pending tab <> []) /\
  (Frontend.timers (Frontend.page tab) = O ->
   Frontend.animating (Frontend.page tab) = false).
Proof.
  cbv zeta.
  assert (forall tab,
    ((Frontend.pending tab = [] /\
      Frontend.buttonDisabled (Frontend.page tab) = false) \/
     (exists k, Frontend.pending tab = [k] /\
      Frontend.buttonDisabled (Frontend.page tab) = true)) /\
    (Frontend.timers (Frontend.page tab) = O ->
     Frontend.animating (Frontend.page tab) = false) ->
    let tab' := Frontend.tab_run evs tab in
    ((Frontend.pending tab' = [] /\
      Frontend.buttonDisabled (Frontend.page tab') = false) \/
     (exists k, Frontend.pending tab' = [k] /\
      Frontend.buttonDisabled (Frontend.page tab') = true)) /\
    (Frontend.timers (Frontend.page tab') = O ->
     Frontend.animating (Frontend.page tab') = false)) as Hrun.
  { induction evs as [|ev evs IH]; intros tab Hinv; [exact Hinv|].
    cbn. apply IH. by apply tab_step_inv. }
  destruct (Hrun Frontend.tab_start) as [Hreq Hanim].
  { split; [right; exists LoadReq; by split | reflexivity]. }
  split; [|split; [|exact Hanim]].
  - destruct Hreq as [[-> _] | (k & -> & _)]; simpl; lia.
  - destruct Hreq as [[-> Hb] | (k & -> & Hb)]; rewrite Hb; split;
      congruence.
Qed.

(** * The page against the server *)

Section PageAndServer.

Variable route_matches : string -> string -> Request -> bool.
Variable frontend_html : string.
Variable syntax_error : string.
Hypothesis routed : routes_page_requests route_matches.

Local Abbreviation load := (visit route_matches frontend_html syntax_error).
Local Abbreviation press := (click route_matches frontend_html syntax_error).
Local Abbreviation presses := (clicks route_matches frontend_html syntax_error).

Lemma handle_get (f fs : fault) (res : Response) (s : Store) :
  app_handle route_matches frontend_html f fs get_request res s
  = api_counter_get f res s.
Proof.
  destruct routed as (Hget & _ & _). unfold app_handle.
  cbn [body get_request]. by rewrite Hget.
Qed.

Lemma handle_post (fu fs : fault) (res : Response) (s : Store) :
  app_handle route_matches frontend_html fu fs post_request res s
  = api_counter_increment fu fs res s.
Proof.
  destruct routed as (_ & Hget & Hpost). unfold app_handle.
  cbn [body post_request]. by rewrite Hget, Hpost.
Qed.

Lemma visit_ok (s : Store) (pg : Frontend.Page) (V : Z) :
  stored_value s = Some V ->
  exists pg',
    load None (s, pg) = (s, pg') /\
    Frontend.counterText pg' = decimal (js_number V) /\
    Frontend.statusClass pg' = "success" /\
    Frontend.buttonDisabled pg' = false.
Proof.
  intros HV. unfold visit. cbn [fst snd]. rewrite handle_get.
  unfold api_counter_get. rewrite (select_value_ok s V HV). cbn [get_on_select].
  eexists. split; [reflexivity|]. by repeat split.
Qed.

Lemma click_ok (s : Store) (pg : Frontend.Page) (V : Z) :
  stored_value s = Some V ->
  exists s' pg',
    press None None (s, pg) = (s', pg') /\
    stored_value s' = Some (sql_add1 V) /\
    Frontend.counterText pg' = decimal (js_number (sql_add1 V)) /\
    Frontend.statusClass pg' = "success" /\
    Frontend.buttonDisabled pg' = false.
Proof.
  intros HV. unfold click. cbn [fst snd]. rewrite handle_post.
  destruct (increment_ok s V HV) as (s' & -> & HV').
  eexists _, _. split; [reflexivity|]. by repeat split.
Qed.

(** X18. One page against the application, no storage fault, the numbers
    involved at most 2^53 in magnitude: after the page has loaded and the
    button has been clicked [N] times, each click after the previous one
    settled, the page displays the stored value, which is the value [V]
    found at load plus [N]; the status line reports success and the button
    is enabled. *)
Theorem page_displays_stored_value (N : nat) (s : Store) (pg : Frontend.Page)
  (V : Z) :
  stored_value s = Some V ->
  - safe_max <= V ->
  V + Z.of_nat N <= safe_max ->
  stored_value (fst (presses N (load None (s, pg)))) = Some (V + Z.of_nat N) /\
  Frontend.counterText (snd (presses N (load None (s, pg))))
  = decimal (V + Z.of_nat N) /\
  Frontend.statusClass (snd (presses N (load None (s, pg)))) = "success" /\
  Frontend.buttonDisabled (snd (presses N (load None (s, pg)))) = false.
Proof.
  intros HV Hlo Hhi.
  destruct (visit_ok s pg V HV) as (pg0 & -> & Htext & Hclass & Hbtn).
  unfold js_number in Htext. rewrite to_double_safe in Htext by lia.
  clear pg. revert s pg0 V HV Hlo Hhi Htext Hclass Hbtn.
  induction N as [|N IH]; intros s pg V HV Hlo Hhi Htext Hclass Hbtn.
  - cbn [clicks fst snd]. rewrite Z.add_0_r. auto.
  - cbn [clicks].
    destruct (click_ok s pg V HV) as (s' & pg' & -> & HV' & Ht' & Hc' & Hb').
    rewrite sql_add1_integer in HV', Ht' by bounds.
    unfold js_number in Ht'. rewrite to_double_safe in Ht' by lia.
    replace (V + Z.of_nat (S N)) with (V + 1 + Z.of_nat N) by lia.
    apply IH; auto; lia.
Qed.

(** X19. When the SELECT behind the page load fails (a storage fault, or no
    table), the page shows "Error!" in place of the number and the status
    line reads "Failed to load counter: Failed to retrieve counter value.",
    in class "error", with the button enabled. *)
Theorem failed_load_shows_error (f : fault) (s : Store) (pg : Frontend.Page) :
  is_Some f \/ s = None ->
  fst (load f (s, pg)) = s /\
  Frontend.counterText (snd (load f (s, pg))) = "Error!" /\
  Frontend.statusText (snd (load f (s, pg)))
  = "Failed to load counter: Failed to retrieve counter value." /\
  Frontend.statusClass (snd (load f (s, pg))) = "error" /\
  Frontend.buttonDisabled (snd (load f (s, pg))) = false.
Proof.
  intros Hfail. unfold visit. cbn [fst snd]. rewrite handle_get.
  rewrite (get_failure f s Hfail). by repeat split.
Qed.

(** X20. The page and the store can disagree.  When the UPDATE of a click
    succeeds and the SELECT after it fails, the row has been given
    [value + 1] ([V + 1] for every INTEGER [V]), but the page keeps
    displaying what it displayed and reports
    "Failed to increment counter: Failed to retrieve new counter value.". *)
Theorem failed_select_leaves_page_behind (m : string) (s : Store)
  (pg : Frontend.Page) (V : Z) :
  stored_value s = Some V ->
  stored_value (fst (press None (Some m) (s, pg))) = Some (sql_add1 V) /\
  (int64_min <= V <= int64_max ->
   stored_value (fst (press None (Some m) (s, pg))) = Some (V + 1)) /\
  Frontend.counterText (snd (press None (Some m) (s, pg)))
  = Frontend.counterText pg /\
  Frontend.statusText (snd (press None (Some m) (s, pg)))
  = "Failed to increment counter: Failed to retrieve new counter value." /\
  Frontend.statusClass (snd (press None (Some m) (s, pg))) = "error".
Proof.
  intros HV. unfold click. cbn [fst snd]. rewrite handle_post.
  destruct (increment_select_failure m s V HV) as (s' & -> & HV').
  repeat split; [exact HV'|]. intros Hrange.
  cbn [fst]. by rewrite HV', sql_add1_integer.
Qed.

(** X21. On a table without row 1 the page loads as if the counter were 0
    (it displays "0" and reports success), and every click fails with
    "Failed to increment counter: Counter row disappeared after increment."
    while the display stays as it was and the store is not changed. *)
Theorem missing_row_page (t : Table) (pg : Frontend.Page) :
  rows t !! 1 = None ->
  (Frontend.counterText (snd (load None (Some t, pg))) = "0" /\
   Frontend.statusClass (snd (load None (Some t, pg))) = "success") /\
  (fst (press None None (Some t, pg)) = Some t /\
   Frontend.counterText (snd (press None None (Some t, pg)))
   = Frontend.counterText pg /\
   Frontend.statusText (snd (press None None (Some t, pg)))
   = "Failed to increment counter: Counter row disappeared after increment.").
Proof.
  intros Ht. split.
  - unfold visit. cbn [fst snd]. rewrite handle_get.
    unfold api_counter_get. simpl. rewrite Ht. by split.
  - unfold click. cbn [fst snd]. rewrite handle_post.
    unfold api_counter_increment. rewrite (update_without_row t Ht).
    simpl. rewrite Ht. by repeat split.
Qed.

End PageAndServer.

Lemma exact_route_routes_page : routes_page_requests exact_route.
Proof. by repeat split. Qed.

Lemma page_displays_stored_value_witness :
  let s := Some {| rows := {[1 := 7]}; seq := 1 |} in
  let out := clicks exact_route "<!DOCTYPE html>" "Unexpected token" 3
               (visit exact_route "<!DOCTYPE html>" "Unexpected token" None
                  (s, Frontend.initial_page)) in
  routes_page_requests exact_route /\
  stored_value s = Some 7 /\
  - safe_max <= 7 /\
  7 + Z.of_nat 3 <= safe_max /\
  stored_value (fst out) = Some (7 + Z.of_nat 3) /\
  Frontend.counterText (snd out) = decimal (7 + Z.of_nat 3) /\
  Frontend.statusClass (snd out) = "success" /\
  Frontend.buttonDisabled (snd out) = false.
Proof.
  cbv zeta.
  assert (- safe_max <= 7) as Hlo by (vm_compute; discriminate).
  assert (7 + Z.of_nat 3 <= safe_max) as Hhi by (vm_compute; discriminate).
  split; [exact exact_route_routes_page|]. split; [reflexivity|].
  split; [exact Hlo|]. split; [exact Hhi|].
  apply (page_displays_stored_value exact_route "<!DOCTYPE html>"
           "Unexpected token" exact_route_routes_page 3
           (Some {| rows := {[1 := 7]}; seq := 1 |}) Frontend.initial_page 7);
    [reflexivity | exact Hlo | exact Hhi].
Defined.

Lemma failed_load_witness :
  let out := visit exact_route "<!DOCTYPE html>" "Unexpected token"
               (Some "SQLITE_BUSY") (None, Frontend.initial_page) in
  routes_page_requests exact_route /\
  (is_Some (Some "SQLITE_BUSY") \/ @None Table = None) /\
  fst out = None /\
  Frontend.counterText (snd out) = "Error!" /\
  Frontend.statusText (snd out)
  = "Failed to load counter: Failed to retrieve counter value." /\
  Frontend.statusClass (snd out) = "error" /\
  Frontend.buttonDisabled (snd out) = false.
Proof.
  cbv zeta.
  assert (is_Some (Some "SQLITE_BUSY") \/ @None Table = None) as Hfail
    by (right; reflexivity).
  split; [exact exact_route_routes_page|]. split; [exact Hfail|].
  exact (failed_load_shows_error exact_route "<!DOCTYPE html>"
           "Unexpected token" exact_route_routes_page (Some "SQLITE_BUSY")
           None Frontend.initial_page Hfail).
Defined.

Lemma failed_select_witness :
  let s := Some {| rows := {[1 := 7]}; seq := 1 |} in
  let pg := Frontend.set_counterText "7" Frontend.initial_page in
  let out := click exact_route "<!DOCTYPE html>" "Unexpected token" None
               (Some "SQLITE_IOERR") (s, pg) in
  routes_page_requests exact_route /\
  stored_value s = Some 7 /\
  stored_value (fst out) = Some (sql_add1 7) /\
  (int64_min <= 7 <= int64_max -> stored_value (fst out) = Some (7 + 1)) /\
  Frontend.counterText (snd out) = Frontend.counterText pg /\
  Frontend.statusText (snd out)
  = "Failed to increment counter: Failed to retrieve new counter value." /\
  Frontend.statusClass (snd out) = "error".
Proof.
  cbv zeta. split; [exact exact_route_routes_page|]. split; [reflexivity|].
  apply (failed_select_leaves_page_behind exact_route "<!DOCTYPE html>"
           "Unexpected token" exact_route_routes_page "SQLITE_IOERR"
           (Some {| rows := {[1 := 7]}; seq := 1 |})
           (Frontend.set_counterText "7" Frontend.initial_page) 7).
  reflexivity.
Defined.

Lemma missing_row_page_witness :
  let t := {| rows := {[2 := 9]}; seq := 2 |} in
  let pg := Frontend.initial_page in
  let loaded := visit exact_route "<!DOCTYPE html>" "Unexpected token" None
                  (Some t, pg) in
  let clicked := click exact_route "<!DOCTYPE html>" "Unexpected token" None
                   None (Some t, pg) in
  routes_page_requests exact_route /\
  rows t !! 1 = None /\
  (Frontend.counterText (snd loaded) = "0" /\
   Frontend.statusClass (snd loaded) = "success") /\
  (fst clicked = Some t /\
   Frontend.counterText (snd clicked) = Frontend.counterText pg /\
   Frontend.statusText (snd clicked)
   = "Failed to increment counter: Counter row disappeared after increment.").
Proof.
  cbv zeta. split; [exact exact_route_routes_page|]. split; [reflexivity|].
  apply (missing_row_page exact_route "<!DOCTYPE html>" "Unexpected token"
           exact_route_routes_page {| rows := {[2 := 9]}; seq := 2 |}
           Frontend.initial_page).
  reflexivity.
Defined.

(** * The standalone page *)

Lemma contains_add (tok : string) (cl : list string) :
  contains tok (classList_add tok cl) = true.
Proof.
  unfold classList_add. destruct (contains tok cl) eqn:H; [exact H|].
  unfold contains. rewrite existsb_app. simpl. rewrite String.eqb_refl.
  by rewrite orb_true_r.
Qed.

Lemma contains_add_ne (tok tok' : string) (cl : list string) :
  tok <> tok' -> contains tok (classList_add tok' cl) = contains tok cl.
Proof.
  intros Hne. unfold classList_add. destruct (contains tok' cl); [reflexivity|].
  unfold contains. rewrite existsb_app. simpl.
  destruct (String.eqb_spec tok tok'); [contradiction|].
  by rewrite !orb_false_r.
Qed.

Lemma contains_remove (tok : string) (cl : list string) :
  contains tok (classList_remove tok cl) = false.
Proof.
  unfold contains, classList_remove.
  induction cl as [|t cl IH]; [reflexivity|]. cbn [List.filter].
  destruct (String.eqb_spec tok t) as [->|Hne]; cbn [negb]; [exact IH|].
  cbn [existsb]. destruct (String.eqb_spec tok t); [contradiction | exact IH].
Qed.

Lemma contains_remove_ne (tok tok' : string) (cl : list string) :
  tok <> tok' -> contains tok (classList_remove tok' cl) = contains tok cl.
Proof.
  intros Hne. unfold contains, classList_remove.
  induction cl as [|t cl IH]; [reflexivity|]. cbn [List.filter existsb].
  destruct (String.eqb_spec tok' t) as [->|Hne']; cbn [negb].
  - destruct (String.eqb_spec tok t); [contradiction | exact IH].
  - cbn [existsb]. by rewrite IH.
Qed.

Ltac class_simpl :=
  repeat first
    [ rewrite contains_add
    | rewrite contains_remove
    | rewrite contains_add_ne by (assumption || discriminate)
    | rewrite contains_remove_ne by (assumption || discriminate) ].

Lemma status_green_classes (pg : IndexPage.Page) :
  let cl := IndexPage.statusClasses (IndexPage.status_green (IndexPage.status_gray pg)) in
  contains "text-green-500" cl = true /\
  contains "text-red-500" cl = false /\
  contains "text-gray-600" cl = false /\
  (forall tok, tok <> "text-gray-600" -> tok <> "text-green-500" ->
               tok <> "text-red-500" ->
               contains tok cl = contains tok (IndexPage.statusClasses pg)).
Proof.
  cbv zeta. unfold IndexPage.status_green, IndexPage.status_gray.
  cbn [IndexPage.statusClasses IndexPage.set_statusClasses].
  repeat split; [class_simpl; reflexivity ..|].
  intros tok Hgray Hgreen Hred. by class_simpl.
Qed.

Lemma status_red_classes (pg : IndexPage.Page) :
  let cl := IndexPage.statusClasses (IndexPage.status_red (IndexPage.status_gray pg)) in
  contains "text-red-500" cl = true /\
  contains "text-green-500" cl = false /\
  contains "text-gray-600" cl = false /\
  (forall tok, tok <> "text-gray-600" -> tok <> "text-green-500" ->
               tok <> "text-red-500" ->
               contains tok cl = contains tok (IndexPage.statusClasses pg)).
Proof.
  cbv zeta. unfold IndexPage.status_red, IndexPage.status_gray.
  cbn [IndexPage.statusClasses IndexPage.set_statusClasses].
  repeat split; [class_simpl; reflexivity ..|].
  intros tok Hgray Hgreen Hred. by class_simpl.
Qed.

(** X22. The colour of the status line of the standalone page tells the
    outcome.  Whatever classes the line had and whatever [fetch] settles
    to, when [fetchCounter] has run the line carries exactly one of the
    three colour classes: green with the success text, or red with a text
    that starts "Failed to load counter: "; every other class of the line is
    as it was. *)
Theorem standalone_load_colour (r : Fetched) (pg : IndexPage.Page) :
  let pg' := IndexPage.fetchCounter r pg in
  let cl := IndexPage.statusClasses pg' in
  ((IndexPage.statusText pg' = "Counter loaded successfully." /\
    contains "text-green-500" cl = true /\
    contains "text-red-500" cl = false /\
    contains "text-gray-600" cl = false) \/
   ((exists m, IndexPage.statusText pg'
               = String.append "Failed to load counter: " m) /\
    contains "text-red-500" cl = true /\
    contains "text-green-500" cl = false /\
    contains "text-gray-600" cl = false)) /\
  (forall tok, tok <> "text-gray-600" -> tok <> "text-green-500" ->
               tok <> "text-red-500" ->
               contains tok cl = contains tok (IndexPage.statusClasses pg)).
Proof.
  cbv zeta.
  pose proof (status_green_classes (IndexPage.set_statusText "Loading counter..." pg))
    as (Hg1 & Hg2 & Hg3 & Hg4).
  pose proof (status_red_classes (IndexPage.set_statusText "Loading counter..." pg))
    as (Hr1 & Hr2 & Hr3 & Hr4).
  unfold IndexPage.fetchCounter, IndexPage.fetchCounter_settle,
    IndexPage.fetchCounter_begin.
  destruct r as [m | status [data | m]]; cbn [IndexPage.fetchCounter_try];
    try destruct (response_ok status); cbn [negb];
    (split; [| first [exact Hg4 | exact Hr4]]);
    first [ left; split; [reflexivity|]; by repeat split
          | right; split; [eexists; reflexivity|]; by repeat split ].
Qed.

(** X23. [incrementCounter] of the standalone page always gives the button
    back: whatever [fetch] settles to, the button ends enabled, without the
    classes "opacity-50" and "cursor-not-allowed", and with every other
    class it had. *)
Theorem standalone_button_restored (r : Fetched) (pg : IndexPage.Page) :
  let pg' := IndexPage.incrementCounter r pg in
  IndexPage.buttonDisabled pg' = false /\
  contains "opacity-50" (IndexPage.buttonClasses pg') = false /\
  contains "cursor-not-allowed" (IndexPage.buttonClasses pg') = false /\
  (forall tok, tok <> "opacity-50" -> tok <> "cursor-not-allowed" ->
               contains tok (IndexPage.buttonClasses pg')
               = contains tok (IndexPage.buttonClasses pg)).
Proof.
  cbv zeta.
  unfold IndexPage.incrementCounter, IndexPage.incrementCounter_settle,
    IndexPage.incrementCounter_begin.
  destruct r as [m | status [data | m]]; cbn [IndexPage.incrementCounter_try];
    try destruct (response_ok status); cbn [negb];
    cbn [IndexPage.buttonDisabled IndexPage.buttonClasses IndexPage.set_button
         IndexPage.status_red IndexPage.status_green IndexPage.status_gray
         IndexPage.set_statusText IndexPage.set_statusClasses
         IndexPage.set_counterText];
    (repeat split; [class_simpl; reflexivity ..|]);
    intros tok Hop Hcur; by class_simpl.
Qed.

Lemma includes_prefix (needle s : string) :
  String.prefix needle s = true -> includes needle s = true.
Proof.
  unfold includes. destruct s as [|a s]; simpl.
  - destruct needle; [reflexivity | discriminate].
  - intros H. destruct needle as [|b needle]; [reflexivity|].
    simpl in H. by rewrite H.
Qed.

(** X24. Three seconds after [incrementCounter] of the standalone page has
    ended, its timer blanks the status line whatever the outcome was (if
    nothing else wrote the line meanwhile): both the success text and every
    failure text match the test of the callback. *)
Theorem standalone_increment_status_cleared (r : Fetched) (pg : IndexPage.Page) :
  IndexPage.statusText
    (IndexPage.incrementCounter_timer (IndexPage.incrementCounter r pg)) = "".
Proof.
  assert (forall m cl pg0,
    IndexPage.statusText
      (IndexPage.incrementCounter_timer
         (IndexPage.set_button false cl
            (IndexPage.status_red
               (IndexPage.set_statusText
                  (String.append "Failed to increment counter: " m) pg0))))
    = "") as Hfail.
  { intros m cl pg0. unfold IndexPage.incrementCounter_timer.
    cbn [IndexPage.statusText IndexPage.set_button IndexPage.status_red
         IndexPage.set_statusClasses IndexPage.set_statusText].
    rewrite (includes_prefix "Failed") by reflexivity.
    by rewrite orb_true_r. }
  unfold IndexPage.incrementCounter, IndexPage.incrementCounter_settle,
    IndexPage.incrementCounter_begin.
  destruct r as [m | status [data | m]]; cbn [IndexPage.incrementCounter_try];
    try destruct (response_ok status); cbn [negb];
    first [apply Hfail | reflexivity].
Qed.

Section StandaloneAndServer.

Variable route_matches : string -> string -> Request -> bool.
Variable frontend_html : string.
Variable syntax_error : string.
Hypothesis routed : routes_page_requests route_matches.

Local Abbreviation load := (standalone_visit route_matches frontend_html syntax_error).
Local Abbreviation race := (click_during_load route_matches frontend_html syntax_error).

(** X25. On the standalone page the message of a failed load is never
    cleared.  When the SELECT behind the load fails, the page shows "Error!"
    and "Failed to load counter: Failed to retrieve counter value."; the
    timer armed by [fetchCounter] tests for "successfully" and "Error",
    finds neither in that text, and leaves the page as it is. *)
Theorem standalone_failed_load_message_stays (f : fault) (s : Store)
  (pg : IndexPage.Page) :
  is_Some f \/ s = None ->
  IndexPage.counterText (snd (load f (s, pg))) = "Error!" /\
  IndexPage.statusText (snd (load f (s, pg)))
  = "Failed to load counter: Failed to retrieve counter value." /\
  IndexPage.fetchCounter_timer (snd (load f (s, pg))) = snd (load f (s, pg)).
Proof.
  intros Hfail. unfold standalone_visit. cbn [fst snd].
  rewrite (handle_get route_matches frontend_html routed).
  rewrite (get_failure f s Hfail). by repeat split.
Qed.

(** X26. The standalone page leaves the button enabled while it loads, so
    a click can overtake the load.  When the application answers the GET
    (cell [V]) before the POST and the reply to the POST reaches the page
    first, the late reply to the GET overwrites the display: the page ends
    idle, reporting a successful load and displaying the number read before
    the update, while the cell holds the updated value.  For [V] of
    magnitude at most 2^53 the display is [V] written exactly and the cell
    holds [V + 1]. *)
Theorem standalone_load_overwrites_click (s : Store) (V : Z) :
  stored_value s = Some V ->
  stored_value (fst (race s)) = Some (sql_add1 V) /\
  IndexPage.counterText (IndexPage.page (snd (race s)))
  = decimal (js_number V) /\
  IndexPage.statusText (IndexPage.page (snd (race s)))
  = "Counter loaded successfully." /\
  IndexPage.pending (snd (race s)) = [] /\
  IndexPage.buttonDisabled (IndexPage.page (snd (race s))) = false /\
  (- safe_max <= V <= safe_max ->
   stored_value (fst (race s)) = Some (V + 1) /\
   IndexPage.counterText (IndexPage.page (snd (race s))) = decimal V).
Proof.
  intros HV. unfold click_during_load.
  rewrite (handle_get route_matches frontend_html routed).
  unfold api_counter_get. rewrite (select_value_ok s V HV).
  rewrite (handle_post route_matches frontend_html routed).
  destruct (increment_ok s V HV) as (s' & -> & HV').
  cbn [fst snd get_on_select].
  split; [exact HV'|].
  assert (IndexPage.counterText
            (IndexPage.page
               (IndexPage.tab_run
                  [IndexPage.Click;
                   IndexPage.Settle 1
                     (wire syntax_error (ok_value (js_number (sql_add1 V))));
                   IndexPage.Settle 0
                     (wire syntax_error
                        (res_json (value_body (js_number V)) fresh_res))]
                  IndexPage.tab_start))
          = decimal (js_number V)) as Htext by reflexivity.
  split; [exact Htext|].
  split; [reflexivity|]. split; [reflexivity|]. split; [reflexivity|].
  intros Hsafe. split.
  - rewrite HV'. f_equal. apply sql_add1_integer. bounds.
  - rewrite Htext. unfold js_number. by rewrite (to_double_safe V Hsafe).
Qed.

End StandaloneAndServer.

Lemma standalone_failed_load_witness :
  let out := standalone_visit exact_route "<!DOCTYPE html>" "Unexpected token"
               (Some "SQLITE_BUSY")
               (Some {| rows := {[1 := 7]}; seq := 1 |}, IndexPage.initial_page) in
  routes_page_requests exact_route /\
  (is_Some (Some "SQLITE_BUSY")
   \/ Some {| rows := {[1 := 7]}; seq := 1 |} = None) /\
  IndexPage.counterText (snd out) = "Error!" /\
  IndexPage.statusText (snd out)
  = "Failed to load counter: Failed to retrieve counter value." /\
  IndexPage.fetchCounter_timer (snd out) = snd out.
Proof.
  cbv zeta.
  assert (is_Some (Some "SQLITE_BUSY")
          \/ Some {| rows := {[1 := 7]}; seq := 1 |} = None) as Hfail
    by (left; eexists; reflexivity).
  split; [exact exact_route_routes_page|]. split; [exact Hfail|].
  exact (standalone_failed_load_message_stays exact_route "<!DOCTYPE html>"
           "Unexpected token" exact_route_routes_page (Some "SQLITE_BUSY")
           (Some {| rows := {[1 := 7]}; seq := 1 |}) IndexPage.initial_page
           Hfail).
Defined.

Lemma standalone_load_overwrites_click_witness :
  let s := Some {| rows := {[1 := 7]}; seq := 1 |} in
  let out := click_during_load exact_route "<!DOCTYPE html>" "Unexpected token" s in
  routes_page_requests exact_route /\
  stored_value s = Some 7 /\
  stored_value (fst out) = Some 8 /\
  IndexPage.counterText (IndexPage.page (snd out)) = "7".
Proof.
  cbv zeta. split; [exact exact_route_routes_page|]. split; [reflexivity|].
  assert (stored_value (Some {| rows := {[1 := 7]}; seq := 1 |}) = Some 7)
    as HV by reflexivity.
  assert (- safe_max <= 7 <= safe_max) as Hsafe by (unfold safe_max; lia).
  destruct (standalone_load_overwrites_click exact_route "<!DOCTYPE html>"
              "Unexpected token" exact_route_routes_page
              (Some {| rows := {[1 := 7]}; seq := 1 |}) 7 HV)
    as (_ & _ & _ & _ & _ & Hexact).
  exact (Hexact Hsafe).
Defined.

(** * Recovery *)

Section Recovery.

Variable route_matches : string -> string -> Request -> bool.
Variable frontend_html : string.

Local Abbreviation step := (sys_step route_matches frontend_html).
Local Abbreviation trace := (run route_matches frontend_html).

(** X27. Whatever happened before (failed launches that left the table
    absent or without its row, requests, stops), when the process is not
    running a fault-free launch brings it to listen on a table with exactly
    the row of id 1; a value stored before is the value found. *)
Theorem fault_free_launch_recovers (evs : list Event) (st : System) :
  trace evs boot = Some st ->
  snd st <> Listening ->
  exists v,
    step (Launch no_faults) st
    = Some (Some {| rows := {[1 := v]}; seq := 1 |}, Listening) /\
    (forall v0, stored_value (fst st) = Some v0 -> v = v0).
Proof.
  intros Hrun Hdown.
  assert (sys_inv st) as Hinv.
  { apply (trace_inv route_matches frontend_html evs boot); [by left | done]. }
  destruct st as [s p]. unfold sys_inv in Hinv. cbn [fst snd] in *.
  assert (s = None \/ s = Some empty_table \/ single_row s) as Hshape
    by (destruct p; [exact Hinv | congruence | exact Hinv]).
  assert (step (Launch no_faults) (s, p) = Some (main no_faults s)) as ->
    by (unfold sys_step; destruct p; [reflexivity | congruence | reflexivity]).
  destruct Hshape as [-> | [-> | [v ->]]].
  - exists 0. split; [reflexivity | discriminate].
  - exists 0. split; [reflexivity | discriminate].
  - exists v. split.
    + unfold main, initializeDatabase. simpl. rewrite map_size_singleton.
      reflexivity.
    + intros v0. simpl. rewrite lookup_singleton_eq. congruence.
Qed.

End Recovery.

Lemma fault_free_launch_recovers_witness :
  let failing := {| on_open := None; on_create := None; on_count := None;
                    on_insert := Some "SQLITE_FULL" |} in
  let st := (Some empty_table, Exited 1) in
  run exact_route "<!DOCTYPE html>" [Launch failing] boot = Some st /\
  snd st <> Listening /\
  exists v,
    sys_step exact_route "<!DOCTYPE html>" (Launch no_faults) st
    = Some (Some {| rows := {[1 := v]}; seq := 1 |}, Listening) /\
    (forall v0, stored_value (fst st) = Some v0 -> v = v0).
Proof.
  cbv zeta.
  assert (snd (Some empty_table, Exited 1) <> Listening) as Hdown
    by discriminate.
  split; [reflexivity|]. split; [exact Hdown|].
  exact (fault_free_launch_recovers exact_route "<!DOCTYPE html>"
           [Launch {| on_open := None; on_create := None; on_count := None;
                      on_insert := Some "SQLITE_FULL" |}]
           (Some empty_table, Exited 1) eq_refl Hdown).
Defined.
